(** * A shallow embedding of the Go package [gen] (file [gen.go])

    [gen] scaffolds a ROS project from an application description: it
    renders text templates to files or into the standard input of an
    external command, converts the task graph into Graphviz node and link
    records, and stages files into the project tree.

    Go's [int] and [int64] values are modelled by [Z]: the only arithmetic
    the package performs itself is the loop increment [i++] below the bound
    [g.Len()], which cannot wrap.  Maps are stdpp [gmap]s, slices are lists,
    a run-time panic is an explicit outcome.

    The pure functions (the two Graphviz conversions, the filename helpers)
    are Rocq functions.  The functions that touch the file system, the
    template library or a subprocess are trees of calls ([Prog]); a run
    ([run]) answers each call from an arbitrary environment and records the
    calls made, so that a property of every run holds whatever the
    operating system does.  Every call is taken to return.

    The file has four parts: the embedding of [gen.go]; concrete graphs and
    simulated environments on which the embedding is run; the vocabulary
    of the properties; the properties: first the claims of the
    specification, then further properties of the code. *)

From Stdlib Require Import ZArith String Ascii List Lia DecimalString DecimalPos DecimalZ Sorted.
From stdpp Require Import base option list gmap strings.

Local Open Scope string_scope.
Local Open Scope list_scope.
Local Open Scope Z_scope.

(** ** Formatting *)

(** The verb [%d] of [fmt.Sprintf]: signed decimal without padding. *)
Definition Sprintf_d (z : Z) : string := NilZero.string_of_int (Z.to_int z).

(** The escape [\n] of a Go string literal. *)
Definition nl : string := String (ascii_of_nat 10) EmptyString.

(** The escaped double quote of a Go string literal. *)
Definition dquote : string := String (ascii_of_nat 34) EmptyString.

(** Indexing a slice with a Go [int]: [None] stands for the run-time panic
    "index out of range". *)
Definition index {A : Type} (s : list A) (i : Z) : option A :=
  if i <? 0 then None else s !! Z.to_nat i.

(** Reading a Go map: a missing key yields the zero value. *)
Definition map_get (m : gmap Z Z) (k : Z) : Z := default 0 (m !! k).

(** ** The imported packages [graph], [ops] and [app] *)

Module graph.
(** Modelled from the spec: the edge type of package [graph] is not part
  of [gen.go]; the code reads the fields [Tag] and [Num] (printed with
  [%d]) and [Color] (copied into a string field). *)
Record Edge : Type := { Tag : Z; Num : Z; Color : string }.
End graph.

(** The queries of packages [graph] and [ops] that [gen.go] calls on a
    graph, kept abstract: edge lookup, connectivity and chain membership. *)
Class GraphOps (G : Type) : Type := {
  Len : G -> Z;
  EdgesAt : Z -> Z -> G -> list graph.Edge;
  Disconnected : Z -> G -> bool;
  ChainForRow : Z -> list Z -> Z;
}.

(** Modelled from the spec: [ops.NodeCount] is not part of [gen.go]; the
    spec defines it as the sum of all chain lengths. *)
Definition NodeCount (chains : list Z) : Z := fold_right Z.add 0 chains.

Module app.
(** Modelled from the spec: package [app] is not part of [gen.go]; an
  application has a name and an ordered sequence of executors, and an
  executor is opaque to this package. *)
Record Application (Executor : Type) : Type :=
{ Name : string; Executors : list Executor }.
Arguments Name {Executor} _.
Arguments Executors {Executor} _.
End app.

(** ** Type definitions of [gen.go] *)

Module Graphdata.
Record t (G : Type) : Type := {
Chains : list Z;
Node_wcet_map : gmap Z Z;
Node_prio_map : gmap Z Z;
Graph : G;
}.
Arguments Chains {G} _.
Arguments Node_wcet_map {G} _.
Arguments Node_prio_map {G} _.
Arguments Graph {G} _.
End Graphdata.

Module Link.
Record t : Type := { From : Z; To : Z; Color : string; Label : string }.
End Link.

Module Node.
Record t : Type :=
{ Id : Z; Label : string; Style : string; Fill : string; Shape : string }.
End Node.

Module Graphviz_graph.
Record t : Type := { Nodes : list Node.t; Links : list Link.t }.
End Graphviz_graph.

Module Graphviz_application.
Record t (Executor : Type) : Type :=
{ App : option (app.Application Executor); Links : list Link.t }.
Arguments App {Executor} _.
Arguments Links {Executor} _.
End Graphviz_application.

(** ** Private Graphviz functions *)

Section Graphviz.
Context {G : Type} `{GraphOps G}.

(** The body of the innermost loop of either conversion,
  [for _, e := range edges { label := ...; links = append(links, Link{...}) }]. *)
Definition range_edges (i j : Z) (edges : list graph.Edge) (links : list Link.t)
: list Link.t :=
fold_left
  (fun links e =>
     let label := Sprintf_d (graph.Tag e) +:+ "." +:+ Sprintf_d (graph.Num e) in
     links ++ [ {| Link.From := i; Link.To := j;
                   Link.Color := graph.Color e; Link.Label := label |} ])
  edges links.

(** [application_to_graphviz], inner loop [for j := 0; j < g.Len(); j++]:
  [n] iterations remain, [j] is the loop variable. *)
Fixpoint application_links_j (g : G) (i : Z) (n : nat) (j : Z) (links : list Link.t)
: list Link.t :=
match n with
| O => links
| S n' =>
    let edges := EdgesAt i j g in
    application_links_j g i n' (j + 1) (range_edges i j edges links)
end.

(** [application_to_graphviz], outer loop [for i := 0; i < g.Len(); i++]. *)
Fixpoint application_links_i (g : G) (n : nat) (i : Z) (links : list Link.t)
: list Link.t :=
match n with
| O => links
| S n' =>
    application_links_i g n' (i + 1)
      (application_links_j g i (Z.to_nat (Len g)) 0 links)
end.

(** The pointer [a] may be [nil] and is stored as it is; the returned
  error is always [nil] and is left out. *)
Definition application_to_graphviz {Executor : Type}
  (a : option (app.Application Executor)) (g : G)
: Graphviz_application.t Executor :=
let links := application_links_i g (Z.to_nat (Len g)) 0 [] in
{| Graphviz_application.App := a; Graphviz_application.Links := links |}.

(** The closure [length_one_chain]; [None] is the panic of the slice
  access. *)
Definition length_one_chain (graph_data : Graphdata.t G) (row : Z) : option bool :=
c ← index (Graphdata.Chains graph_data)
          (ChainForRow row (Graphdata.Chains graph_data));
Some (c =? 1).

Definition chain_node (graph_data : Graphdata.t G) (i : Z) : Node.t :=
let label := "N" +:+ Sprintf_d i +:+ nl +:+
             "(wcet=" +:+ Sprintf_d (map_get (Graphdata.Node_wcet_map graph_data) i)
             +:+ " us)" +:+ nl +:+
             "prio=" +:+ Sprintf_d (map_get (Graphdata.Node_prio_map graph_data) i) in
{| Node.Id := i; Node.Label := label; Node.Style := "filled";
   Node.Fill := "#FFFFFF"; Node.Shape := "circle" |}.

Definition sync_node (i : Z) : Node.t :=
let label := "N" +:+ Sprintf_d i +:+ nl +:+ "(SYNC)" in
{| Node.Id := i; Node.Label := label; Node.Style := "filled";
   Node.Fill := "#FFE74C"; Node.Shape := "diamond" |}.

(** The condition [!ops.Disconnected(i, g) || length_one_chain(i)]; the
  right operand is evaluated only when the left one is false. *)
Definition node_drawn (graph_data : Graphdata.t G) (i : Z) : option bool :=
if negb (Disconnected i (Graphdata.Graph graph_data)) then Some true
else length_one_chain graph_data i.

(** "Create all nodes": [n] iterations remain, [i] is the loop variable. *)
Fixpoint nodes_for_i (graph_data : Graphdata.t G) (n_chain_nodes : Z)
  (n : nat) (i : Z) (nodes : list Node.t) : option (list Node.t) :=
match n with
| O => Some nodes
| S n' =>
    drawn ← node_drawn graph_data i;
    let nodes :=
      if drawn : bool then
        if i <? n_chain_nodes then nodes ++ [chain_node graph_data i]
        else nodes ++ [sync_node i]
      else nodes in
    nodes_for_i graph_data n_chain_nodes n' (i + 1) nodes
end.

(** [graph_to_graphviz], "Create all links", inner loop over [j]. *)
Fixpoint graph_links_j (graph_data : Graphdata.t G) (i : Z) (n : nat) (j : Z)
  (links : list Link.t) : list Link.t :=
match n with
| O => links
| S n' =>
    let edges := EdgesAt i j (Graphdata.Graph graph_data) in
    graph_links_j graph_data i n' (j + 1) (range_edges i j edges links)
end.

(** [graph_to_graphviz], "Create all links", outer loop over [i]. *)
Fixpoint graph_links_i (graph_data : Graphdata.t G) (n : nat) (i : Z)
  (links : list Link.t) : list Link.t :=
match n with
| O => links
| S n' =>
    graph_links_i graph_data n' (i + 1)
      (graph_links_j graph_data i
         (Z.to_nat (Len (Graphdata.Graph graph_data))) 0 links)
end.

(** The returned error is always [nil] and is left out; [None] is a
  panic. *)
Definition graph_to_graphviz (graph_data : Graphdata.t G) : option Graphviz_graph.t :=
let n_chain_nodes := NodeCount (Graphdata.Chains graph_data) in
nodes ← nodes_for_i graph_data n_chain_nodes
          (Z.to_nat (Len (Graphdata.Graph graph_data))) 0 [];
let links := graph_links_i graph_data
               (Z.to_nat (Len (Graphdata.Graph graph_data))) 0 [] in
Some {| Graphviz_graph.Nodes := nodes; Graphviz_graph.Links := links |}.

End Graphviz.

(** ** The remaining type definitions of [gen.go] *)

Module Metadata.
Record t : Type := {
  Packages : list string;
  Includes : list string;
  MsgType : string;
  PPE : bool;
  PPE_levels : Z;
  FilterPolicy : string;
  Libraries : list string;
  Headers : list string;
  Sources : list string;
  Duration_us : Z;
  Logging_mode : Z;
}.
End Metadata.

Module ROS_Executor.
Record t (E : Type) : Type := {
  Includes : list string;
  MsgType : string;
  FilterPolicy : string;
  PPE : bool;
  PPE_levels : Z;
  Executor : E;
  Duration_us : Z;
}.
Arguments Includes {E} _.
Arguments MsgType {E} _.
Arguments FilterPolicy {E} _.
Arguments PPE {E} _.
Arguments PPE_levels {E} _.
Arguments Executor {E} _.
Arguments Duration_us {E} _.
End ROS_Executor.

Module Build.
Record t (E : Type) : Type := {
  Name : string;
  Packages : list string;
  Sources : list string;
  Libraries : list string;
  Executors : list (ROS_Executor.t E);
}.
Arguments Name {E} _.
Arguments Packages {E} _.
Arguments Sources {E} _.
Arguments Libraries {E} _.
Arguments Executors {E} _.
End Build.

(** The values that [GenerateApplication] passes as the [data interface{}]
    argument of the two renderers. *)
Inductive Data (E : Type) : Type :=
| ExecutorData (x : ROS_Executor.t E)
| BuildData (x : Build.t E)
| GraphData (x : Graphviz_graph.t)
| ApplicationData (x : Graphviz_application.t E).
Arguments ExecutorData {E} _.
Arguments BuildData {E} _.
Arguments GraphData {E} _.
Arguments ApplicationData {E} _.

(** ** The operating system and the template library *)

(** An [error] is the message that [err.Error()] returns; [errors.New]
    builds one from a message. *)
Definition error : Type := string.

Inductive result (A : Type) : Type :=
| Ok (a : A)
| Err (err : error).
Arguments Ok {A} _.
Arguments Err {A} _.

(** What [template.New("Unnamed").Parse] returns for a text. *)
Inductive Template : Type := Parsed (text : string).

(** Where [t.Execute] writes: the buffered writer of the output file of
    that name, or the write end of the pipe of [GenerateWithCommand]. *)
Inductive Writer : Type :=
| FileWriter (name : string)
| PipeWriter.

(** The error of [os.Stat], as far as [os.IsNotExist] tells. *)
Inductive StatError : Type :=
| ErrNotExist
| ErrOther (err : error).

Definition IsNotExist (err : option StatError) : bool :=
  match err with Some ErrNotExist => true | _ => false end.

(** The calls that leave the package.  An open file is named by the path
    it was opened with.  [Go_Run] is the statement
    [go func() { cmd.Run(); r.Close() }()]; its answer is what [cmd.Run()]
    returns inside the goroutine. *)
Inductive Op (D : Type) : Type :=
| LookPath (file : string)
| ReadFile (filename : string)
| Parse (text : string)
| Create (name : string)
| Execute (t : Template) (w : Writer) (data : D)
| Flush (name : string)
| Close (name : string)
| Go_Run (command : string) (args : list string)
| Pipe_Close
| Mkdir (name : string) (perm : Z)
| Stat (name : string)
| Open (name : string)
| OpenFile (name : string) (flag : Z) (perm : Z)
| Copy (dst src : string).
Arguments LookPath {D} _.
Arguments ReadFile {D} _.
Arguments Parse {D} _.
Arguments Create {D} _.
Arguments Execute {D} _ _ _.
Arguments Flush {D} _.
Arguments Close {D} _.
Arguments Go_Run {D} _ _.
Arguments Pipe_Close {D}.
Arguments Mkdir {D} _ _.
Arguments Stat {D} _.
Arguments Open {D} _.
Arguments OpenFile {D} _ _ _.
Arguments Copy {D} _ _.

(** The answer to each call.  [ReadFile] answers [Ok None] for a nil
    buffer without an error; an [option error] is a returned [error],
    [None] being [nil]. *)
Definition Resp {D : Type} (o : Op D) : Type :=
  match o with
  | LookPath _ => result string
  | ReadFile _ => result (option string)
  | Parse _ => result Template
  | Create _ => option error
  | Execute _ _ _ => option error
  | Flush _ => unit
  | Close _ => unit
  | Go_Run _ _ => option error
  | Pipe_Close => unit
  | Mkdir _ _ => option error
  | Stat _ => option StatError
  | Open _ => option error
  | OpenFile _ _ _ => option error
  | Copy _ _ => option error
  end.

(** A Go function body as a tree of calls: it returns, panics, or makes a
    call and continues with the answer. *)
Inductive Prog (D R : Type) : Type :=
| Ret (r : R)
| Panic
| Do (o : Op D) (k : Resp o -> Prog D R).
Arguments Ret {D R} _.
Arguments Panic {D R}.
Arguments Do {D R} _ _.

Fixpoint bind {D A B : Type} (p : Prog D A) (f : A -> Prog D B) : Prog D B :=
  match p with
  | Ret a => f a
  | Panic => Panic
  | Do o k => Do o (fun x => bind (k x) f)
  end.

Definition call {D : Type} (o : Op D) : Prog D (Resp o) := Do o Ret.

Declare Scope prog_scope.
Delimit Scope prog_scope with prog.
Notation "x <- c ; k" := (bind c (fun x => k))
  (at level 20, c at level 100, k at level 200, only parsing) : prog_scope.
Notation "c ;; k" := (bind c (fun _ => k))
  (at level 100, k at level 200, only parsing, right associativity) : prog_scope.
(** The idiom [err = f(...); if nil != err { return errors.New(msg + err.Error()) }]. *)
Notation "'check' c 'orelse' wrap ; k" :=
  (bind c (fun err => match err with
                      | Some e => Ret (Some (wrap e))
                      | None => k
                      end))
  (at level 20, c at level 100, wrap at level 9, k at level 200, only parsing) : prog_scope.
Local Open Scope prog_scope.

(** An event of a run: a call and the answer it got. *)
Record Event (D : Type) : Type := Ev { ev_op : Op D; ev_resp : Resp ev_op }.
Arguments Ev {D} _ _.
Arguments ev_op {D} _.
Arguments ev_resp {D} _.

Inductive Outcome (R : Type) : Type :=
| Returned (r : R)
| Panicked.
Arguments Returned {R} _.
Arguments Panicked {R}.

(** The environment answers every call and moves to its next state. *)
Definition Handler (D W : Type) : Type := forall o : Op D, W -> Resp o * W.

(** Running a body in an environment: the outcome, the final state of the
    environment, and the calls made, in order. *)
Fixpoint run {D W R : Type} (h : Handler D W) (p : Prog D R) (w : W)
  : Outcome R * W * list (Event D) :=
  match p with
  | Ret r => (Returned r, w, [])
  | Panic => (Panicked, w, [])
  | Do o k =>
      let '(x, w1) := h o w in
      let '(r, w2, tr) := run h (k x) w1 in
      (r, w2, Ev o x :: tr)
  end.

(** ** Public functions: the two renderers *)

Section Renderers.
Context {D : Type}.

Definition GenerateWithCommand (path command : string) (args : list string)
    (data : option D) : Prog D (option error) :=
  (* Check: command exists *)
  r <- call (LookPath command) ;
  match r with
  | Err err =>
      Ret (Some ("Cannot find command " +:+ dquote +:+ command +:+ dquote +:+ ": " +:+ err))
  | Ok _ =>
  (* Check: valid data *)
  match data with
  | None => Ret (Some "bad input: null pointer")
  | Some data =>
  (* Read in the template file *)
  r <- call (ReadFile path) ;
  match r with
  | Err err =>
      Ret (Some ("Unable to read template " +:+ dquote +:+ path +:+ dquote +:+ ": " +:+ err))
  | Ok None => Panic (* [err.Error()] on a nil [err] *)
  | Ok (Some template_buffer) =>
  (* Convert file to template *)
  r <- call (Parse template_buffer) ;
  match r with
  | Err err => Ret (Some ("Template parse error: " +:+ err))
  | Ok t =>
  (* Run the command in a goroutine, reading from the pipe *)
  _ <- call (Go_Run command args) ;
  (* Execute template into the pipe; [defer w.Close()] *)
  err <- call (Execute t PipeWriter data) ;
  call Pipe_Close ;;
  match err with
  | Some err => Ret (Some ("Exception executing template: " +:+ err))
  | None => Ret None
  end end end end end.

Definition GenerateTemplate (data : option D) (in_path out_path : string)
  : Prog D (option error) :=
  (* check: valid input *)
  match data with
  | None => Ret (Some "bad argument: null pointer")
  | Some data =>
  if String.eqb in_path out_path
  then Ret (Some "input file (template) cannot be same as output file")
  else
  (* Create the output file; [defer out_file.Close()] *)
  err <- call (Create out_path) ;
  match err with
  | Some err =>
      Ret (Some ("unable to create output file (" +:+ out_path +:+ "): " +:+ err))
  | None =>
  (* Open the template file *)
  r <- call (ReadFile in_path) ;
  match r with
  | Err err =>
      call (Close out_path) ;;
      Ret (Some ("unable to read input file (" +:+ in_path +:+ "): " +:+ err))
  | Ok None => call (Close out_path) ;; Panic
  | Ok (Some template_file) =>
  r <- call (Parse template_file) ;
  match r with
  | Err err =>
      call (Close out_path) ;;
      Ret (Some ("unable to parse the template: " +:+ err))
  | Ok t =>
  (* Create buffered writer; [defer writer.Flush()] *)
  err <- call (Execute t (FileWriter out_path) data) ;
  call (Flush out_path) ;;
  call (Close out_path) ;;
  match err with
  | Some err => Ret (Some ("error executing template: " +:+ err))
  | None => Ret None
  end end end end end.

End Renderers.

(** ** Package [strings] *)

(** [explode]: one string per character (a character is a byte here; Go
    keeps the bytes of one UTF-8 sequence together). *)
Fixpoint explode (s : string) : list string :=
  match s with
  | EmptyString => []
  | String c s' => String c EmptyString :: explode s'
  end.

(** The loop of [strings.genSplit] for a separator that is not empty:
    cut at the first [Index(s, sep)], continue behind the separator. *)
Fixpoint split_loop (n : nat) (s sep : string) : list string :=
  match n with
  | O => [s]
  | S n' =>
      match String.index 0 sep s with
      | None => [s]
      | Some m =>
          let rest := substring (m + String.length sep)
                                (String.length s - (m + String.length sep)) s in
          substring 0 m s :: split_loop n' rest sep
      end
  end.

(** [strings.Split(s, sep)]: the empty slice only when both [s] and [sep]
    are empty. *)
Definition Split (s sep : string) : list string :=
  if String.eqb sep "" then explode s
  else split_loop (String.length s) s sep.

(** [strings.HasSuffix(s, suffix)]. *)
Definition HasSuffix (s suffix : string) : bool :=
  (String.length suffix <=? String.length s)%nat &&
  String.eqb (substring (String.length s - String.length suffix)
                        (String.length suffix) s) suffix.

(** ** Private support functions *)

Definition filename_from_path (path : string) : string * option error :=
  let path_elements := Split path "/" in
  if (length path_elements =? 0)%nat
  then ("", Some "Both separator and path are empty!")
  else (List.last path_elements "", None).

Fixpoint range_paths (paths : list string) (filenames : list string)
  : list string * option error :=
  match paths with
  | [] => (filenames, None)
  | path :: paths' =>
      match filename_from_path path with
      | (_, Some err) => ([], Some err)
      | (filename, None) => range_paths paths' (filenames ++ [filename])
      end
  end.

Definition filenames_from_paths (paths : list string) : list string * option error :=
  range_paths paths [].

(** The flags [os.O_RDWR] and [os.O_CREATE] (their values on Linux). *)
Definition O_RDWR : Z := 2.
Definition O_CREATE : Z := 64.

Section Support.
Context {D : Type}.

Definition copy_file (from to : string) : Prog D (option error) :=
  err <- call (Open from) ;
  match err with
  | Some err => Ret (Some err)
  | None =>
  (* [defer file_from.Close()] *)
  err <- call (OpenFile to (Z.lor O_RDWR O_CREATE) 511) ;
  match err with
  | Some err => call (Close from) ;; Ret (Some err)
  | None =>
  (* [defer file_to.Close()] *)
  err <- call (Copy to from) ;
  call (Close to) ;;
  call (Close from) ;;
  match err with
  | Some err => Ret (Some err)
  | None => Ret None
  end end end.

Definition exists_file_or_directory (path : string) : Prog D bool :=
  err <- call (Stat path) ;
  Ret (negb (IsNotExist err)).

(** The loop [for _, path := range paths] of [copy_files_to]. *)
Fixpoint copy_each (paths : list string) (destination : string)
  : Prog D (option error) :=
  match paths with
  | [] => Ret None
  | path :: paths' =>
      (* Check if path exists *)
      found <- exists_file_or_directory path ;
      if negb found then Ret (Some ("Unable to locate: " +:+ path))
      else
      (* Strip down to the filename *)
      match filename_from_path path with
      | (_, Some err) => Ret (Some err)
      | (filename, None) =>
      (* Copy over *)
      check copy_file path (destination +:+ "/" +:+ filename) orelse id ;
      copy_each paths' destination
      end
  end.

Definition copy_files_to (paths : list string) (destination : string)
  : Prog D (option error) :=
  (* Check if destination exists *)
  found <- exists_file_or_directory destination ;
  if negb found then Ret (Some ("Unable to locate: " +:+ destination))
  else copy_each paths destination.

(** The closure [make_directories] of [GenerateApplication]; 0777 is 511. *)
Fixpoint make_directories (directories : list string) : Prog D (option error) :=
  match directories with
  | [] => Ret None
  | dir :: directories' =>
      check call (Mkdir dir 511)
        orelse (fun err => "Cannot make dir (" +:+ dir +:+ "): " +:+ err) ;
      make_directories directories'
  end.

End Support.

(** ** Public functions: the orchestrator *)

Section Orchestrator.
Context {E G : Type} `{GraphOps G}.

(** The composite literal [ROS_Executor{...}] of the loop over the
    executors. *)
Definition ros_executor (meta : Metadata.t) (exec : E) : ROS_Executor.t E :=
  {| ROS_Executor.Includes := Metadata.Includes meta;
     ROS_Executor.MsgType := Metadata.MsgType meta;
     ROS_Executor.FilterPolicy := Metadata.FilterPolicy meta;
     ROS_Executor.PPE := Metadata.PPE meta;
     ROS_Executor.PPE_levels := Metadata.PPE_levels meta;
     ROS_Executor.Executor := exec;
     ROS_Executor.Duration_us := Metadata.Duration_us meta |}.

(** "Generate source files", [for i, exec := range a.Executors]: [i] is
    the index of the head of [execs]; the error is the one the function
    returns from inside the loop. *)
Fixpoint range_executors (meta : Metadata.t) (path src_dir : string)
    (i : Z) (execs : list E) (executors : list (ROS_Executor.t E))
  : Prog (Data E) (option error * list (ROS_Executor.t E)) :=
  match execs with
  | [] => Ret (None, executors)
  | exec :: execs' =>
      let ros_exec_name := "executor_" +:+ Sprintf_d i +:+ ".cpp" in
      let ros_exec := ros_executor meta exec in
      let executors := executors ++ [ros_exec] in
      let exec_template_file_name :=
        "executor_" +:+ Sprintf_d (Metadata.Logging_mode meta) +:+ ".tmpl" in
      err <- GenerateTemplate (Some (ExecutorData ros_exec))
               (path +:+ "/templates/" +:+ exec_template_file_name)
               (src_dir +:+ "/" +:+ ros_exec_name) ;
      match err with
      | Some err => Ret (Some ("Unable to generate source file: " +:+ err), executors)
      | None => range_executors meta path src_dir (i + 1) execs' executors
      end
  end.

Definition GenerateApplication (a : option (app.Application E)) (path : string)
    (meta : Metadata.t) (graph_data : Graphdata.t G)
  : Prog (Data E) (option error) :=
  (* Check: input *)
  match a with
  | None => Ret (Some "bad argument: null pointer")
  | Some a =>
  (* Strip possible forward-slash from path *)
  let path :=
    if (1 <? String.length path)%nat && HasSuffix path "/"
    then substring 0 (String.length path - 1) path
    else path in
  (* Prepare directories *)
  let root_dir := path +:+ "/" +:+ app.Name a in
  let src_dir := root_dir +:+ "/src" in
  let include_dir_1 := root_dir +:+ "/include" in
  let include_dir_2 := include_dir_1 +:+ "/" +:+ app.Name a in
  let lib_dir := root_dir +:+ "/lib" in
  let launch_dir := root_dir +:+ "/launch" in
  let assets_dir := root_dir +:+ "/assets" in
  (* Create directories *)
  let ds := [root_dir; src_dir; include_dir_1; include_dir_2; lib_dir;
             launch_dir; assets_dir] in
  check make_directories ds orelse id ;
  (* Generate source files *)
  r <- range_executors meta path src_dir 0 (app.Executors a) [] ;
  match r with
  | (Some err, _) => Ret (Some err)
  | (None, executors) =>
  (* Update the metadata *)
  match filenames_from_paths (Metadata.Sources meta) with
  | (_, Some err) => Ret (Some err)
  | (sources, None) =>
  match filenames_from_paths (Metadata.Libraries meta) with
  | (_, Some err) => Ret (Some err)
  | (libraries, None) =>
  let build :=
    {| Build.Name := app.Name a;
       Build.Packages := Metadata.Packages meta;
       Build.Sources := sources;
       Build.Libraries := libraries;
       Build.Executors := executors |} in
  (* Generate makefile *)
  check GenerateTemplate (Some (BuildData build))
          (path +:+ "/templates/CMakeLists.tmpl") (root_dir +:+ "/CMakeLists.txt")
    orelse (fun err => "Unable to generate CMakeLists: " +:+ err) ;
  (* Generate package descriptor file *)
  check GenerateTemplate (Some (BuildData build))
          (path +:+ "/templates/package.tmpl") (root_dir +:+ "/package.xml")
    orelse (fun err => "Unable to generate package XML file: " +:+ err) ;
  (* Copy in libraries, headers, and source files *)
  check copy_files_to (Metadata.Libraries meta) lib_dir
    orelse (fun err => "Unable to copy in libraries/header/src-files: " +:+ err) ;
  check copy_files_to (Metadata.Headers meta) include_dir_2
    orelse (fun err => "Unable to copy headers to include dir: " +:+ err) ;
  check copy_files_to (Metadata.Sources meta) src_dir
    orelse (fun err => "Unable to copy source files to src dir: " +:+ err) ;
  (* Generate the launch file *)
  check GenerateTemplate (Some (BuildData build))
          (path +:+ "/templates/launch.tmpl")
          (launch_dir +:+ "/" +:+ Build.Name build +:+ "_launch.py")
    orelse (fun err => "Unable to generate launch file: " +:+ err) ;
  (* Generate the chains graph *)
  match graph_to_graphviz graph_data with
  | None => Panic
  | Some graphviz_graph =>
  check GenerateWithCommand (path +:+ "/templates/graph.dt") "dot"
          ["-Tpng"; "-o"; assets_dir +:+ "/graph.png"]
          (Some (GraphData graphviz_graph))
    orelse (fun err => "Unable to generate graph dot file: " +:+ err) ;
  (* Generate the application graph *)
  let graphviz_application :=
    application_to_graphviz (Some a) (Graphdata.Graph graph_data) in
  check GenerateWithCommand (path +:+ "/templates/application.dt") "dot"
          ["-Tpng"; "-o"; assets_dir +:+ "/application.png"]
          (Some (ApplicationData graphviz_application))
    orelse (fun err => "Unable to generate application dot file: " +:+ err) ;
  Ret None
  end end end end end.

End Orchestrator.

(** * Concrete graphs and environments *)

(** ** A matrix graph, to run the conversions on concrete inputs *)

Module MatrixGraph.
(** Modelled from the spec: packages [graph] and [ops] are not part of
  [gen.go].  A graph is a square matrix of edge lists; a node is
  disconnected when no edge joins it to another node; the nodes of the
  chains are numbered consecutively, chain after chain, and a row
  beyond the last chain belongs to none (-1). *)
Definition t : Type := list (list (list graph.Edge)).

Definition edges_at (i j : Z) (g : t) : list graph.Edge :=
default [] (row ← index g i; index row j).

Definition disconnected (i : Z) (g : t) : bool :=
forallb (fun j => (j =? i) ||
                  (match edges_at i j g, edges_at j i g with
                   | [], [] => true
                   | _, _ => false
                   end))
        (seqZ 0 (Z.of_nat (length g))).

Fixpoint chain_for_row (c : Z) (row : Z) (chains : list Z) : Z :=
match chains with
| [] => -1
| len :: rest => if row <? len then c else chain_for_row (c + 1) (row - len) rest
end.

#[global] Instance ops : GraphOps t := {
Len g := Z.of_nat (length g);
EdgesAt := edges_at;
Disconnected := disconnected;
ChainForRow := chain_for_row 0;
}.
End MatrixGraph.

(** ** A simulated environment, to run the functions on concrete inputs *)

Module Sim.
(** The commands on the search path, the files and directories that
    exist with their contents, and the exit status of every command that
    is run. *)
Record World : Type := {
  on_path : list string;
  files : gmap string string;
  exit_status : option error;
}.

Definition with_file (name text : string) (w : World) : World :=
  {| on_path := on_path w; files := <[name := text]> (files w);
     exit_status := exit_status w |}.

Definition missing (name : string) : error := name +:+ ": no such file or directory".

Definition handle {D : Type} : Handler D World := fun o w =>
  match o as o' return Resp o' * World with
  | LookPath file =>
      (if existsb (String.eqb file) (on_path w) then Ok ("/usr/bin/" +:+ file)
       else Err "executable file not found in $PATH", w)
  | ReadFile filename =>
      (match files w !! filename with
       | Some text => Ok (Some text)
       | None => Err (missing filename)
       end, w)
  | Parse text => (Ok (Parsed text), w)
  | Create name => (None, with_file name "" w)
  | Execute _ _ _ => (None, w)
  | Flush _ => (tt, w)
  | Close _ => (tt, w)
  | Go_Run _ _ => (exit_status w, w)
  | Pipe_Close => (tt, w)
  | Mkdir name _ =>
      match files w !! name with
      | Some _ => (Some (name +:+ ": file exists"), w)
      | None => (None, with_file name "" w)
      end
  | Stat name =>
      (match files w !! name with
       | Some _ => None
       | None => Some ErrNotExist
       end, w)
  | Open name =>
      (match files w !! name with
       | Some _ => None
       | None => Some (missing name)
       end, w)
  | OpenFile name _ _ =>
      match files w !! name with
      | Some _ => (None, w)
      | None => (None, with_file name "" w)
      end
  | Copy dst src =>
      match files w !! src with
      | Some text => (None, with_file dst text w)
      | None => (Some (missing src), w)
      end
  end.
End Sim.

(** ** Concrete inputs *)

Module Examples.
Import MatrixGraph.

Definition edge (tag num : Z) (color : string) : graph.Edge :=
  {| graph.Tag := tag; graph.Num := num; graph.Color := color |}.

(** One chain of one node, joined to a synchronization node by two
    parallel edges. *)
Definition sync_data : Graphdata.t MatrixGraph.t :=
  {| Graphdata.Chains := [1];
     Graphdata.Node_wcet_map := {[ 0 := 250 ]};
     Graphdata.Node_prio_map := {[ 0 := 3 ]};
     Graphdata.Graph := [ [ []; [edge 0 1 "red"; edge 0 2 "blue"] ];
                          [ []; [] ] ] |}.

Definition sync_node_1 : Node.t :=
  {| Node.Id := 1;
     Node.Label := "N1" +:+ nl +:+ "(SYNC)";
     Node.Style := "filled"; Node.Fill := "#FFE74C"; Node.Shape := "diamond" |}.

Definition sync_diagram : Graphviz_graph.t :=
  {| Graphviz_graph.Nodes :=
       [ {| Node.Id := 0;
            Node.Label := "N0" +:+ nl +:+ "(wcet=250 us)" +:+ nl +:+ "prio=3";
            Node.Style := "filled"; Node.Fill := "#FFFFFF"; Node.Shape := "circle" |};
         sync_node_1 ];
     Graphviz_graph.Links :=
       [ {| Link.From := 0; Link.To := 1; Link.Color := "red"; Link.Label := "0.1" |};
         {| Link.From := 0; Link.To := 1; Link.Color := "blue"; Link.Label := "0.2" |} ] |}.

(** Two chains of one node each and no edge. *)
Definition singleton_data : Graphdata.t MatrixGraph.t :=
  {| Graphdata.Chains := [1; 1];
     Graphdata.Node_wcet_map := ∅;
     Graphdata.Node_prio_map := ∅;
     Graphdata.Graph := [ [ []; [] ]; [ []; [] ] ] |}.

Definition singleton_diagram : Graphviz_graph.t :=
  {| Graphviz_graph.Nodes :=
       [ {| Node.Id := 0;
            Node.Label := "N0" +:+ nl +:+ "(wcet=0 us)" +:+ nl +:+ "prio=0";
            Node.Style := "filled"; Node.Fill := "#FFFFFF"; Node.Shape := "circle" |};
         {| Node.Id := 1;
            Node.Label := "N1" +:+ nl +:+ "(wcet=0 us)" +:+ nl +:+ "prio=0";
            Node.Style := "filled"; Node.Fill := "#FFFFFF"; Node.Shape := "circle" |} ];
     Graphviz_graph.Links := [] |}.



(** One chain of two nodes, the first feeding the second. *)
Definition chain_data : Graphdata.t MatrixGraph.t :=
  {| Graphdata.Chains := [2];
     Graphdata.Node_wcet_map := {[ 0 := 100; 1 := 200 ]};
     Graphdata.Node_prio_map := {[ 0 := 1; 1 := 2 ]};
     Graphdata.Graph := [ [ []; [edge 0 0 "black"] ]; [ []; [] ] ] |}.

(** A chain of two nodes and a third node that nothing reaches: the
    closure indexes [Chains] at -1 for the third node. *)
Definition stray_data : Graphdata.t MatrixGraph.t :=
  {| Graphdata.Chains := [2];
     Graphdata.Node_wcet_map := ∅;
     Graphdata.Node_prio_map := ∅;
     Graphdata.Graph := [ [ []; [edge 0 0 "black"]; [] ];
                          [ []; []; [] ];
                          [ []; []; [] ] ] |}.

(** An application of two executors (an executor is its name here), run
    with the templates in place and a [dot] that exits with a failure. *)
Definition demo_app : app.Application string :=
  {| app.Name := "demo"; app.Executors := ["first"; "second"] |}.

Definition demo_meta : Metadata.t :=
  {| Metadata.Packages := ["rclcpp"];
     Metadata.Includes := [];
     Metadata.MsgType := "std_msgs::msg::Int64";
     Metadata.PPE := false;
     Metadata.PPE_levels := 0;
     Metadata.FilterPolicy := "";
     Metadata.Libraries := [];
     Metadata.Headers := [];
     Metadata.Sources := [];
     Metadata.Duration_us := 1000000;
     Metadata.Logging_mode := 0 |}.

Definition demo_world : Sim.World :=
  {| Sim.on_path := ["dot"];
     Sim.files :=
       list_to_map
         [ ("ws/templates/executor_0.tmpl", "executor");
           ("ws/templates/CMakeLists.tmpl", "cmake");
           ("ws/templates/package.tmpl", "package");
           ("ws/templates/launch.tmpl", "launch");
           ("ws/templates/graph.dt", "digraph");
           ("ws/templates/application.dt", "digraph") ];
     Sim.exit_status := Some "exit status 1" |}.

Definition bare_world : Sim.World :=
  {| Sim.on_path := []; Sim.files := ∅; Sim.exit_status := None |}.

Definition demo_run
  : Outcome (option error) * Sim.World * list (Event (Data string)) :=
  run Sim.handle (GenerateApplication (Some demo_app) "ws/" demo_meta chain_data)
      demo_world.

Definition dot_run : Outcome (option error) * Sim.World * list (Event Z) :=
  run Sim.handle
      (GenerateWithCommand "ws/templates/graph.dt" "dot" ["-Tpng"] (Some 7))
      demo_world.

End Examples.

(** ** More concrete environments and runs *)

Module Faulty.
(** An environment in which every call succeeds, except that a file is
    read as a nil buffer without an error. *)
Definition handle {D : Type} : Handler D unit := fun o w =>
  match o as o' return Resp o' * unit with
  | LookPath file => (Ok file, w)
  | ReadFile _ => (Ok None, w)
  | Parse text => (Ok (Parsed text), w)
  | Create _ => (None, w)
  | Execute _ _ _ => (None, w)
  | Flush _ => (tt, w)
  | Close _ => (tt, w)
  | Go_Run _ _ => (None, w)
  | Pipe_Close => (tt, w)
  | Mkdir _ _ => (None, w)
  | Stat _ => (None, w)
  | Open _ => (None, w)
  | OpenFile _ _ _ => (None, w)
  | Copy _ _ => (None, w)
  end.
End Faulty.

Module Scenarios.

(** The launch template rendered to a file. *)
Definition template_run : Outcome (option error) * Sim.World * list (Event Z) :=
  run Sim.handle (GenerateTemplate (Some 7) "ws/templates/launch.tmpl" "launch.py")
      Examples.demo_world.

(** The two renderers on a file that reads as a nil buffer. *)
Definition faulty_template_run : Outcome (option error) * unit * list (Event Z) :=
  run Faulty.handle (GenerateTemplate (Some 7) "launch.tmpl" "launch.py") tt.

Definition faulty_command_run : Outcome (option error) * unit * list (Event Z) :=
  run Faulty.handle (GenerateWithCommand "graph.dt" "dot" ["-Tpng"] (Some 7)) tt.

(** Two files staged into a directory; the second one is missing. *)
Definition staging_world : Sim.World :=
  {| Sim.on_path := [];
     Sim.files := list_to_map [ ("lib", ""); ("vendor/libppe.a", "archive") ];
     Sim.exit_status := None |}.

Definition staging_run : Outcome (option error) * Sim.World * list (Event Z) :=
  run Sim.handle (copy_files_to ["vendor/libppe.a"; "vendor/missing.a"] "lib")
      staging_world.

(** A generation whose graph has a disconnected node in no chain. *)
Definition stray_run
  : Outcome (option error) * Sim.World * list (Event (Data string)) :=
  run Sim.handle
      (GenerateApplication (Some Examples.demo_app) "ws/" Examples.demo_meta
                           Examples.stray_data)
      Examples.demo_world.

End Scenarios.

(** * Vocabulary of the properties *)

(** ** Counted loops *)

(** The values the loop variable takes in [n] iterations from [i]. *)
Fixpoint Zseq (i : Z) (n : nat) : list Z :=
  match n with
  | O => []
  | S n' => i :: Zseq (i + 1) n'
  end.

(** One list continues the other. *)
Definition follows {A : Type} (l expected : list A) : Prop :=
  l `prefix_of` expected \/ expected `prefix_of` l.

(** ** Diagrams *)

Section GraphvizVocabulary.
Context {G : Type} `{GraphOps G}.

(** The link that the loop body appends for edge [e] of the pair [(i, j)]. *)
Definition link_of_edge (i j : Z) (e : graph.Edge) : Link.t :=
  {| Link.From := i; Link.To := j; Link.Color := graph.Color e;
     Link.Label := Sprintf_d (graph.Tag e) +:+ "." +:+ Sprintf_d (graph.Num e) |}.

(** The links of row [i], and of the whole graph, in scan order. *)
Definition row_links (g : G) (i : Z) (js : list Z) : list Link.t :=
  flat_map (fun j => map (link_of_edge i j) (EdgesAt i j g)) js.

Definition all_links (g : G) : list Link.t :=
  flat_map (fun i => row_links g i (Zseq 0 (Z.to_nat (Len g))))
           (Zseq 0 (Z.to_nat (Len g))).

Definition link_between (i j : Z) (l : Link.t) : bool :=
  (Link.From l =? i) && (Link.To l =? j).

(** The node that the loop body appends for an index it draws. *)
Definition node_of (gd : Graphdata.t G) (i : Z) : Node.t :=
  if i <? NodeCount (Graphdata.Chains gd) then chain_node gd i else sync_node i.

Definition drawn (gd : Graphdata.t G) (i : Z) : bool :=
  match node_drawn gd i with Some true => true | _ => false end.


End GraphvizVocabulary.

(** ** Paths *)

Fixpoint contains (c : ascii) (s : string) : bool :=
  match s with
  | EmptyString => false
  | String b s' => if ascii_dec c b then true else contains c s'
  end.

Definition slash : ascii := ascii_of_nat 47.

(** [f] is what follows the last separator of [path]: [f] holds no
    separator and either ends [path] behind one or is all of [path]. *)
Definition after_last_separator (path f : string) : Prop :=
  contains slash f = false /\ (path = f \/ exists pre, path = pre +:+ "/" +:+ f).

(** ** Runs *)

Section RunVocabulary.
Context {D : Type}.

(** The names, in order, of the files a run creates and reads, and the
    destinations and data of the templates it executes. *)
Definition created (tr : list (Event D)) : list string :=
  omap (fun ev => match ev_op ev with Create name => Some name | _ => None end) tr.

Definition read (tr : list (Event D)) : list string :=
  omap (fun ev => match ev_op ev with ReadFile name => Some name | _ => None end) tr.

Definition executed (tr : list (Event D)) : list (Writer * D) :=
  omap (fun ev => match ev_op ev with
                  | Execute _ w data => Some (w, data)
                  | _ => None
                  end) tr.

(** The steps of [GenerateWithCommand] that can fail, and their success;
    the answer of [Go_Run], the exit status, is left free. *)
Definition step_succeeded (ev : Event D) : bool :=
  match ev with
  | Ev o r =>
      match o as o' return Resp o' -> bool with
      | LookPath _ => fun r => match r with Ok _ => true | Err _ => false end
      | ReadFile _ => fun r => match r with Ok (Some _) => true | _ => false end
      | Parse _ => fun r => match r with Ok _ => true | Err _ => false end
      | Execute _ _ _ => fun r => match r with None => true | Some _ => false end
      | _ => fun _ => true
      end r
  end.

End RunVocabulary.

Section OrchestratorVocabulary.
Context {E : Type} (meta : Metadata.t) (path src_dir : string).

Definition executor_source (i : Z) : string :=
  src_dir +:+ "/executor_" +:+ Sprintf_d i +:+ ".cpp".

Definition executor_template : string :=
  path +:+ "/templates/executor_" +:+ Sprintf_d (Metadata.Logging_mode meta) +:+ ".tmpl".

Definition sources_from (i : Z) (execs : list E) : list string :=
  executor_source <$> Zseq i (length execs).

Definition templates_for (execs : list E) : list string :=
  (fun _ => executor_template) <$> execs.

Definition renders_from (i : Z) (execs : list E) : list (Writer * Data E) :=
  zip_with (fun k exec => (FileWriter (executor_source k),
                           ExecutorData (ros_executor meta exec)))
           (Zseq i (length execs)) execs.

End OrchestratorVocabulary.

(** "Strip possible forward-slash from path". *)
Definition stripped (path : string) : string :=
  if (1 <? String.length path)%nat && HasSuffix path "/"
  then substring 0 (String.length path - 1) path
  else path.

(** ** Order of a diagram *)

(** Row-major order of links: by source, then by destination. *)
Definition link_le (l1 l2 : Link.t) : Prop :=
  Link.From l1 < Link.From l2
  \/ (Link.From l1 = Link.From l2 /\ Link.To l1 <= Link.To l2).

(** ** File handles and calls of a run *)

Section HandleVocabulary.
Context {D : Type}.

(** Whether a name is among the open files. *)
Definition is_open (name : string) (open : list string) : bool :=
  existsb (String.eqb name) open.

(** One call against the stack of open files, innermost first: a
    successful [Create], [Open] or [OpenFile] opens a file; [Close] must
    close the innermost open file; [Flush], [Execute] into a file and
    [Copy] need their files open.  [None]: the call breaks this
    discipline. *)
Definition step_open (open : list string) (ev : Event D) : option (list string) :=
  match ev with
  | Ev o r =>
      match o as o' return Resp o' -> option (list string) with
      | Create name => fun r =>
          match r with None => Some (name :: open) | Some _ => Some open end
      | Open name => fun r =>
          match r with None => Some (name :: open) | Some _ => Some open end
      | OpenFile name _ _ => fun r =>
          match r with None => Some (name :: open) | Some _ => Some open end
      | Close name => fun _ =>
          match open with
          | top :: rest => if String.eqb top name then Some rest else None
          | [] => None
          end
      | Flush name => fun _ => if is_open name open then Some open else None
      | Execute _ (FileWriter name) _ => fun _ =>
          if is_open name open then Some open else None
      | Copy dst src => fun _ =>
          if is_open dst open && is_open src open then Some open else None
      | _ => fun _ => Some open
      end r
  end.

(** The open files after a run that starts with the files [open]. *)
Fixpoint open_after (open : list string) (tr : list (Event D)) : option (list string) :=
  match tr with
  | [] => Some open
  | ev :: tr' =>
      match step_open open ev with
      | Some open' => open_after open' tr'
      | None => None
      end
  end.

(** The calls of a run, without their answers. *)
Definition calls (tr : list (Event D)) : list (Op D) := map ev_op tr.

(** The directories a run tries to make. *)
Definition mkdirs (tr : list (Event D)) : list string :=
  omap (fun ev => match ev_op ev with Mkdir name _ => Some name | _ => None end) tr.

(** The commands a run starts, with their arguments. *)
Definition started (tr : list (Event D)) : list (string * list string) :=
  omap (fun ev => match ev_op ev with
                  | Go_Run command args => Some (command, args)
                  | _ => None
                  end) tr.

(** The copies a run completes, as pairs of destination and source. *)
Definition copied (tr : list (Event D)) : list (string * string) :=
  omap (fun ev =>
          match ev with
          | Ev o r =>
              match o as o' return Resp o' -> option (string * string) with
              | Copy dst src => fun r =>
                  match r with None => Some (dst, src) | Some _ => None end
              | _ => fun _ => None
              end r
          end) tr.

(** A file was read as a nil buffer without an error. *)
Definition is_nil_read (ev : Event D) : bool :=
  match ev with
  | Ev o r =>
      match o as o' return Resp o' -> bool with
      | ReadFile _ => fun r => match r with Ok None => true | _ => false end
      | _ => fun _ => false
      end r
  end.

Definition nil_buffer_read (tr : list (Event D)) : bool := existsb is_nil_read tr.

End HandleVocabulary.

Definition panicked {R : Type} (res : Outcome R) : bool :=
  match res with Panicked => true | Returned _ => false end.

(** ** Effects of a run *)

(** What a run achieves: the calls that change the project tree or start a
    command, when they succeed. *)
Inductive Effect (D : Type) : Type :=
| Made (dir : string)
| Created (name : string)
| Rendered (w : Writer) (data : D)
| Copied (dst src : string)
| Started (command : string) (args : list string).
Arguments Made {D} _.
Arguments Created {D} _.
Arguments Rendered {D} _ _.
Arguments Copied {D} _ _.
Arguments Started {D} _ _.

Section EffectVocabulary.
Context {D : Type}.

Definition effect_of (ev : Event D) : option (Effect D) :=
  match ev with
  | Ev o r =>
      match o as o' return Resp o' -> option (Effect D) with
      | Mkdir dir _ => fun r => match r with None => Some (Made dir) | Some _ => None end
      | Create name => fun r => match r with None => Some (Created name) | Some _ => None end
      | Execute _ w data => fun r =>
          match r with None => Some (Rendered w data) | Some _ => None end
      | Copy dst src => fun r =>
          match r with None => Some (Copied dst src) | Some _ => None end
      | Go_Run command args => fun _ => Some (Started command args)
      | _ => fun _ => None
      end r
  end.

(** The effects of a run, in order. *)
Definition effects (tr : list (Event D)) : list (Effect D) := omap effect_of tr.

End EffectVocabulary.

(** The name that [filename_from_path] returns. *)
Definition basename (path : string) : string := fst (filename_from_path path).

Section ExpectedEffects.
Context {E G : Type} `{GraphOps G}.

(** The effects of rendering the executors [execs], the first of index [i]. *)
Definition executor_effects (meta : Metadata.t) (src_dir : string) (i : Z)
    (execs : list E) : list (Effect (Data E)) :=
  concat (zip_with
            (fun k exec =>
               [ Created (executor_source src_dir k);
                 Rendered (FileWriter (executor_source src_dir k))
                          (ExecutorData (ros_executor meta exec)) ])
            (Zseq i (length execs)) execs).

(** The effects of copying [paths] into [destination]. *)
Definition copy_effects {D : Type} (paths : list string) (destination : string)
  : list (Effect D) :=
  (fun path => Copied (destination +:+ "/" +:+ basename path) path) <$> paths.

(** The record that the three build templates are rendered from. *)
Definition build_of (a : app.Application E) (meta : Metadata.t) : Build.t E :=
  {| Build.Name := app.Name a;
     Build.Packages := Metadata.Packages meta;
     Build.Sources := basename <$> Metadata.Sources meta;
     Build.Libraries := basename <$> Metadata.Libraries meta;
     Build.Executors := ros_executor meta <$> app.Executors a |}.

(** All the effects of a generation, in order: the directories, one source
    per executor, the manifest and the descriptor, the staged files, the
    launch script, and the two diagrams piped into [dot]. *)
Definition generation_effects (a : app.Application E) (path : string)
    (meta : Metadata.t) (gd : Graphdata.t G) : list (Effect (Data E)) :=
  let path := stripped path in
  let root_dir := path +:+ "/" +:+ app.Name a in
  let src_dir := root_dir +:+ "/src" in
  let include_dir_2 := (root_dir +:+ "/include") +:+ "/" +:+ app.Name a in
  let lib_dir := root_dir +:+ "/lib" in
  let launch_dir := root_dir +:+ "/launch" in
  let assets_dir := root_dir +:+ "/assets" in
  let build := BuildData (build_of a meta) in
  (Made <$> [root_dir; src_dir; root_dir +:+ "/include"; include_dir_2; lib_dir;
             launch_dir; assets_dir])
  ++ executor_effects meta src_dir 0 (app.Executors a)
  ++ [ Created (root_dir +:+ "/CMakeLists.txt");
       Rendered (FileWriter (root_dir +:+ "/CMakeLists.txt")) build;
       Created (root_dir +:+ "/package.xml");
       Rendered (FileWriter (root_dir +:+ "/package.xml")) build ]
  ++ copy_effects (Metadata.Libraries meta) lib_dir
  ++ copy_effects (Metadata.Headers meta) include_dir_2
  ++ copy_effects (Metadata.Sources meta) src_dir
  ++ [ Created (launch_dir +:+ "/" +:+ app.Name a +:+ "_launch.py");
       Rendered (FileWriter (launch_dir +:+ "/" +:+ app.Name a +:+ "_launch.py")) build ]
  ++ match graph_to_graphviz gd with
     | None => []
     | Some diagram =>
         [ Started "dot" ["-Tpng"; "-o"; assets_dir +:+ "/graph.png"];
           Rendered PipeWriter (GraphData diagram);
           Started "dot" ["-Tpng"; "-o"; assets_dir +:+ "/application.png"];
           Rendered PipeWriter
             (ApplicationData (application_to_graphviz (Some a) (Graphdata.Graph gd))) ]
     end.

(** The effects that write the project, which is all of them but the two
    diagrams: the directories, one source per executor, the manifest and
    the descriptor, the staged files and the launch script. *)
Definition project_effects (a : app.Application E) (path : string)
    (meta : Metadata.t) : list (Effect (Data E)) :=
  let path := stripped path in
  let root_dir := path +:+ "/" +:+ app.Name a in
  let src_dir := root_dir +:+ "/src" in
  let include_dir_2 := (root_dir +:+ "/include") +:+ "/" +:+ app.Name a in
  let lib_dir := root_dir +:+ "/lib" in
  let launch_dir := root_dir +:+ "/launch" in
  let assets_dir := root_dir +:+ "/assets" in
  let build := BuildData (build_of a meta) in
  (Made <$> [root_dir; src_dir; root_dir +:+ "/include"; include_dir_2; lib_dir;
             launch_dir; assets_dir])
  ++ executor_effects meta src_dir 0 (app.Executors a)
  ++ [ Created (root_dir +:+ "/CMakeLists.txt");
       Rendered (FileWriter (root_dir +:+ "/CMakeLists.txt")) build;
       Created (root_dir +:+ "/package.xml");
       Rendered (FileWriter (root_dir +:+ "/package.xml")) build ]
  ++ copy_effects (Metadata.Libraries meta) lib_dir
  ++ copy_effects (Metadata.Headers meta) include_dir_2
  ++ copy_effects (Metadata.Sources meta) src_dir
  ++ [ Created (launch_dir +:+ "/" +:+ app.Name a +:+ "_launch.py");
       Rendered (FileWriter (launch_dir +:+ "/" +:+ app.Name a +:+ "_launch.py")) build ].

End ExpectedEffects.

(** The build records among the effects of a run. *)
Definition builds {E : Type} (L : list (Effect (Data E))) : list (Build.t E) :=
  omap (fun e => match e with
                 | Rendered _ (BuildData build) => Some build
                 | _ => None
                 end) L.

Definition is_made {D : Type} (e : Effect D) : bool :=
  match e with Made _ => true | _ => false end.

(** The directories of a project, in the order [GenerateApplication] makes
    them. *)
Definition project_directories {E : Type} (a : app.Application E) (path : string)
  : list string :=
  let root_dir := stripped path +:+ "/" +:+ app.Name a in
  [ root_dir; root_dir +:+ "/src"; root_dir +:+ "/include";
    (root_dir +:+ "/include") +:+ "/" +:+ app.Name a; root_dir +:+ "/lib";
    root_dir +:+ "/launch"; root_dir +:+ "/assets" ].

(** ** Properties of every run *)

Section RunProperties.
Context {D W : Type} (h : Handler D W).

(** [P] holds of the trace of every run of a body, and of whether the run
    panicked. *)
Definition always {R : Type} (P : list (Event D) -> bool -> Prop) (p : Prog D R) : Prop :=
  forall w res w' tr, run h p w = (res, w', tr) -> P tr (panicked res).

(** Every run of the body achieves an initial part of [L], and all of [L]
    when it returns nil. *)
Definition fulfils (p : Prog D (option error)) (L : list (Effect D)) : Prop :=
  forall w res w' tr,
    run h p w = (res, w', tr) ->
    effects tr `prefix_of` L /\ (res = Returned None -> effects tr = L).

End RunProperties.

(** A run that leaves the open files as it found them, whatever they are. *)
Definition neutral {D : Type} (tr : list (Event D)) (_ : bool) : Prop :=
  forall open, open_after open tr = Some open.

(** A run panics only after a nil buffer was read, or when [X] holds. *)
Definition panics_only_if {D : Type} (X : Prop) (tr : list (Event D)) (b : bool) : Prop :=
  b = true -> nil_buffer_read tr = true \/ X.

(** Every run of the body that panics has read a nil buffer, or else [X]
    holds and the run achieved exactly [L] before it panicked. *)
Definition panics_after {D W : Type} (h : Handler D W) (X : Prop)
    (p : Prog D (option error)) (L : list (Effect D)) : Prop :=
  forall w w' tr,
    run h p w = (Panicked, w', tr) ->
    nil_buffer_read tr = true \/ (X /\ effects tr = L).

(** * Properties *)

(** ** Counted loops *)

Lemma In_Zseq (k i : Z) (n : nat) : In k (Zseq i n) <-> i <= k < i + Z.of_nat n.
Proof.
  revert i. induction n as [|n IH]; intros i; simpl.
  - lia.
  - rewrite IH. lia.
Qed.

Lemma Zseq_split (i k : Z) (n : nat) :
  i <= k < i + Z.of_nat n ->
  Zseq i n = Zseq i (Z.to_nat (k - i)) ++ k :: Zseq (k + 1) (Z.to_nat (i + Z.of_nat n - k - 1)).
Proof.
  revert i. induction n as [|n IH]; intros i Hk; [lia|].
  destruct (Z.eq_dec i k) as [->|Hne].
  - replace (k - k) with 0 by lia. simpl. do 2 f_equal. lia.
  - replace (Z.to_nat (k - i)) with (S (Z.to_nat (k - (i + 1)))) by lia.
    simpl. f_equal. rewrite (IH (i + 1)) by lia. do 3 f_equal. lia.
Qed.

Section GraphvizFacts.
Context {G : Type} `{GraphOps G}.
Implicit Types (gd : Graphdata.t G) (g : G).

Lemma range_edges_app i j edges links :
  range_edges i j edges links = links ++ map (link_of_edge i j) edges.
Proof.
  revert links. induction edges as [|e es IH]; intros links; simpl.
  - now rewrite app_nil_r.
  - rewrite IH, <- app_assoc. reflexivity.
Qed.

Lemma application_links_j_app g i n j links :
  application_links_j g i n j links = links ++ row_links g i (Zseq j n).
Proof.
  revert j links. induction n as [|n IH]; intros j links; simpl.
  - now rewrite app_nil_r.
  - rewrite IH, range_edges_app, <- app_assoc. reflexivity.
Qed.

Lemma application_links_i_app g n i links :
  application_links_i g n i links
  = links ++ flat_map (fun i => row_links g i (Zseq 0 (Z.to_nat (Len g)))) (Zseq i n).
Proof.
  revert i links. induction n as [|n IH]; intros i links; simpl.
  - now rewrite app_nil_r.
  - rewrite IH, application_links_j_app, <- app_assoc. reflexivity.
Qed.

Lemma graph_links_j_app gd i n j links :
  graph_links_j gd i n j links
  = links ++ row_links (Graphdata.Graph gd) i (Zseq j n).
Proof.
  revert j links. induction n as [|n IH]; intros j links; simpl.
  - now rewrite app_nil_r.
  - rewrite IH, range_edges_app, <- app_assoc. reflexivity.
Qed.

Lemma graph_links_i_app gd n i links :
  graph_links_i gd n i links
  = links ++ flat_map (fun i => row_links (Graphdata.Graph gd) i
                                  (Zseq 0 (Z.to_nat (Len (Graphdata.Graph gd)))))
                      (Zseq i n).
Proof.
  revert i links. induction n as [|n IH]; intros i links; simpl.
  - now rewrite app_nil_r.
  - rewrite IH, graph_links_j_app, <- app_assoc. reflexivity.
Qed.

Lemma graph_to_graphviz_links gd out :
  graph_to_graphviz gd = Some out ->
  Graphviz_graph.Links out = all_links (Graphdata.Graph gd).
Proof.
  unfold graph_to_graphviz. intros Hrun.
  destruct (nodes_for_i _ _ _ _ _) as [nodes|]; simpl in Hrun; [|discriminate].
  injection Hrun as <-. simpl. now rewrite graph_links_i_app.
Qed.

Lemma filter_flat_map_none {A B} (p : B -> bool) (f : A -> list B) (l : list A) :
  (forall a, In a l -> List.filter p (f a) = []) ->
  List.filter p (flat_map f l) = [].
Proof.
  induction l as [|a l IH]; intros Hn; simpl; [reflexivity|].
  rewrite List.filter_app, Hn by (simpl; auto).
  apply IH. intros a' Ha'. apply Hn. simpl; auto.
Qed.

Lemma filter_flat_map_one {A B} (p : B -> bool) (f : A -> list B) (l1 l2 : list A) a :
  (forall a', In a' l1 -> List.filter p (f a') = []) ->
  (forall a', In a' l2 -> List.filter p (f a') = []) ->
  List.filter p (flat_map f (l1 ++ a :: l2)) = List.filter p (f a).
Proof.
  intros H1 H2. rewrite flat_map_app, List.filter_app. simpl.
  rewrite List.filter_app, !filter_flat_map_none, app_nil_r by assumption.
  reflexivity.
Qed.

Lemma filter_links_other i j i' j' es :
  (i', j') <> (i, j) -> List.filter (link_between i j) (map (link_of_edge i' j') es) = [].
Proof.
  intros Hne. induction es as [|e es IH]; simpl; [reflexivity|].
  unfold link_between at 1. simpl.
  destruct (Z.eqb_spec i' i), (Z.eqb_spec j' j); simpl; try apply IH.
  congruence.
Qed.

Lemma filter_links_same i j es :
  List.filter (link_between i j) (map (link_of_edge i j) es) = map (link_of_edge i j) es.
Proof.
  induction es as [|e es IH]; simpl; [reflexivity|].
  unfold link_between at 1. simpl. rewrite !Z.eqb_refl. simpl. now rewrite IH.
Qed.

Lemma filter_row_links_other g i j i' js :
  i' <> i -> List.filter (link_between i j) (row_links g i' js) = [].
Proof.
  intros Hne. apply filter_flat_map_none. intros j' _.
  apply filter_links_other. congruence.
Qed.

Lemma filter_rows g i j (n m : nat) :
  0 <= i < Z.of_nat n -> 0 <= j < Z.of_nat m ->
  List.filter (link_between i j)
              (flat_map (fun i => row_links g i (Zseq 0 m)) (Zseq 0 n))
  = map (link_of_edge i j) (EdgesAt i j g).
Proof.
  intros Hi Hj.
  rewrite (Zseq_split 0 i n) by lia.
  rewrite filter_flat_map_one.
  - unfold row_links. rewrite (Zseq_split 0 j m) by lia.
    rewrite filter_flat_map_one.
    + apply filter_links_same.
    + intros j' Hj'. apply In_Zseq in Hj'. apply filter_links_other.
      intros [= ->]. lia.
    + intros j' Hj'. apply In_Zseq in Hj'. apply filter_links_other.
      intros [= ->]. lia.
  - intros i' Hi'. apply In_Zseq in Hi'. apply filter_row_links_other. lia.
  - intros i' Hi'. apply In_Zseq in Hi'. apply filter_row_links_other. lia.
Qed.

Lemma filter_all_links g i j :
  0 <= i < Len g -> 0 <= j < Len g ->
  List.filter (link_between i j) (all_links g) = map (link_of_edge i j) (EdgesAt i j g).
Proof. intros Hi Hj. apply filter_rows; lia. Qed.

Lemma filter_all_links_outside g i j :
  ~ (0 <= i < Len g /\ 0 <= j < Len g) ->
  List.filter (link_between i j) (all_links g) = [].
Proof.
  intros Hout. apply filter_flat_map_none. intros i' Hi'. apply In_Zseq in Hi'.
  apply filter_flat_map_none. intros j' Hj'. apply In_Zseq in Hj'.
  apply filter_links_other. intros [= -> ->]. lia.
Qed.

Lemma node_of_Id gd i : Node.Id (node_of gd i) = i.
Proof. unfold node_of. now destruct (i <? _). Qed.

Lemma nodes_for_i_app gd n i nodes nodes' :
  nodes_for_i gd (NodeCount (Graphdata.Chains gd)) n i nodes = Some nodes' ->
  nodes' = nodes ++ map (node_of gd) (List.filter (drawn gd) (Zseq i n)).
Proof.
  revert i nodes. induction n as [|n IH]; intros i nodes; simpl.
  - intros [= <-]. now rewrite app_nil_r.
  - unfold drawn at 1, node_of at 1.
    destruct (node_drawn gd i) as [[|]|]; simpl; [| |discriminate].
    + intros Hrun. apply IH in Hrun. subst nodes'.
      destruct (i <? _); now rewrite <- app_assoc.
    + apply IH.
Qed.

Lemma nodes_for_i_returns gd c n i nodes :
  (forall k, i <= k < i + Z.of_nat n -> node_drawn gd k <> None) ->
  nodes_for_i gd c n i nodes <> None.
Proof.
  revert i nodes. induction n as [|n IH]; intros i nodes Hall; simpl; [discriminate|].
  destruct (node_drawn gd i) as [b|] eqn:Hi; simpl.
  - apply IH. intros k Hk. apply Hall. lia.
  - exfalso. apply (Hall i); [lia|assumption].
Qed.

(** The conversion returns as soon as the chain of every disconnected
    node exists. *)
Lemma graph_to_graphviz_returns gd :
  (forall i, 0 <= i < Len (Graphdata.Graph gd) ->
             Disconnected i (Graphdata.Graph gd) = true ->
             0 <= ChainForRow i (Graphdata.Chains gd)
               < Z.of_nat (length (Graphdata.Chains gd))) ->
  graph_to_graphviz gd <> None.
Proof.
  intros Hin. unfold graph_to_graphviz.
  destruct (nodes_for_i _ _ _ _ _) eqn:Hn; simpl; [discriminate|].
  exfalso. revert Hn. apply nodes_for_i_returns. intros k Hk.
  unfold node_drawn, length_one_chain, index.
  destruct (Disconnected k _) eqn:Hd; simpl; [|discriminate].
  specialize (Hin k ltac:(lia) Hd).
  destruct (Z.ltb_spec (ChainForRow k (Graphdata.Chains gd)) 0) as [?|_]; [lia|].
  destruct (Graphdata.Chains gd !! _) eqn:Hl; simpl; [discriminate|].
  apply lookup_ge_None in Hl. lia.
Qed.

Lemma graph_to_graphviz_nodes gd out :
  graph_to_graphviz gd = Some out ->
  Graphviz_graph.Nodes out
  = map (node_of gd)
        (List.filter (drawn gd) (Zseq 0 (Z.to_nat (Len (Graphdata.Graph gd))))).
Proof.
  unfold graph_to_graphviz. intros Hrun.
  destruct (nodes_for_i _ _ _ _ _) as [nodes|] eqn:Hn; simpl in Hrun; [|discriminate].
  injection Hrun as <-. simpl. now apply nodes_for_i_app in Hn.
Qed.






End GraphvizFacts.

(** ** Splitting a path *)

Lemma app_String (x : ascii) (a b : string) : String x a +:+ b = String x (a +:+ b).
Proof. reflexivity. Qed.

Lemma string_app_assoc (a b c : string) : (a +:+ b) +:+ c = a +:+ b +:+ c.
Proof.
  induction a as [|x a IH]; [reflexivity|].
  rewrite !app_String. f_equal. exact IH.
Qed.

Lemma string_length_app (a b : string) :
  String.length (a +:+ b) = (String.length a + String.length b)%nat.
Proof.
  induction a as [|x a IH]; [reflexivity|].
  rewrite app_String. simpl. f_equal. exact IH.
Qed.

Lemma substring_all (s : string) : substring 0 (String.length s) s = s.
Proof. induction s as [|x s IH]; simpl; [reflexivity|]. f_equal. exact IH. Qed.

Lemma substring_app_head (a b : string) : substring 0 (String.length a) (a +:+ b) = a.
Proof.
  induction a as [|x a IH].
  - now destruct b.
  - rewrite app_String. simpl. f_equal. exact IH.
Qed.

Lemma substring_app_tail (a b : string) (k n : nat) :
  substring (String.length a + k) n (a +:+ b) = substring k n b.
Proof.
  induction a as [|x a IH]; [reflexivity|].
  rewrite app_String. simpl. exact IH.
Qed.

(** [strings.Index] for a separator of one character. *)
Lemma index_char (c : ascii) (s : string) :
  match String.index 0 (String c EmptyString) s with
  | None => contains c s = false
  | Some m => exists pre rest,
      s = pre +:+ String c rest /\ String.length pre = m /\ contains c pre = false
  end.
Proof.
  induction s as [|b s IH]; simpl; [reflexivity|].
  destruct (ascii_dec c b) as [->|Hne].
  - replace (String.prefix "" s) with true by now destruct s.
    exists EmptyString, s. auto.
  - destruct (String.index 0 (String c EmptyString) s) as [m|].
    + destruct IH as (pre & rest & -> & <- & Hpre).
      exists (String b pre), rest. rewrite app_String. simpl.
      destruct (ascii_dec c b); [contradiction|]. auto.
    + assumption.
Qed.

Lemma split_loop_slash (n : nat) (s : string) :
  (String.length s <= n)%nat ->
  split_loop n s "/" <> [] /\ after_last_separator s (List.last (split_loop n s "/") "").
Proof.
  revert s. induction n as [|n IH]; intros s Hlen.
  - destruct s; [|simpl in Hlen; lia]. simpl. split; [discriminate|].
    split; [reflexivity|now left].
  - simpl. pose proof (index_char slash s) as Hidx.
    change (String slash EmptyString) with "/" in Hidx.
    destruct (String.index 0 "/" s) as [m|].
    + destruct Hidx as (pre & rest & -> & <- & Hpre).
      rewrite substring_app_head, string_length_app.
      replace (String.length pre + String.length "/")%nat
        with (String.length pre + 1)%nat by reflexivity.
      rewrite substring_app_tail. simpl String.length.
      replace (String.length pre + S (String.length rest) - (String.length pre + 1))%nat
        with (String.length rest) by lia.
      simpl substring. rewrite substring_all.
      rewrite string_length_app in Hlen. simpl in Hlen.
      destruct (IH rest) as [Hne (Hf & Hrest)]; [lia|].
      split; [discriminate|].
      destruct (split_loop n rest "/") as [|x l] eqn:Hsplit; [contradiction|].
      change (List.last (pre :: x :: l) "") with (List.last (x :: l) "").
      split; [assumption|]. right.
      destruct Hrest as [Heq|(pre' & Heq)].
      * exists pre. now rewrite <- Heq.
      * exists (pre +:+ "/" +:+ pre'). rewrite Heq at 1.
        now rewrite !string_app_assoc.
    + split; [discriminate|]. split; [assumption|now left].
Qed.

Lemma filename_from_path_basename (path : string) :
  exists f, filename_from_path path = (f, None) /\ after_last_separator path f.
Proof.
  unfold filename_from_path, Split. simpl String.eqb.
  destruct (split_loop_slash (String.length path) path) as [Hne Hlast]; [lia|].
  destruct (split_loop (String.length path) path "/") as [|x l] eqn:Hsplit;
    [contradiction|].
  simpl Nat.eqb. cbv iota. eauto.
Qed.

Lemma range_paths_app (paths filenames : list string) :
  range_paths paths filenames
  = (filenames ++ map (fun path => fst (filename_from_path path)) paths, None).
Proof.
  revert filenames. induction paths as [|path paths IH]; intros filenames; simpl.
  - now rewrite app_nil_r.
  - destruct (filename_from_path_basename path) as (f & -> & _).
    rewrite IH, <- app_assoc. reflexivity.
Qed.

(** ** Runs of a body *)

Section Runs.
Context {D W : Type} (h : Handler D W).
Implicit Types (tr : list (Event D)).

Lemma run_bind {A B : Type} (p : Prog D A) (f : A -> Prog D B) (w : W) :
  run h (bind p f) w =
  match run h p w with
  | (Returned a, w1, tr1) =>
      let '(r, w2, tr2) := run h (f a) w1 in (r, w2, tr1 ++ tr2)
  | (Panicked, w1, tr1) => (Panicked, w1, tr1)
  end.
Proof.
  revert w. induction p as [a| |o k IH]; intros w; simpl.
  - now destruct (run h (f a) w) as [[r w2] tr2].
  - reflexivity.
  - destruct (h o w) as [x w1]. rewrite IH.
    destruct (run h (k x) w1) as [[[a|] w2] tr1]; [|reflexivity].
    now destruct (run h (f a) w2) as [[r w3] tr2].
Qed.

Lemma created_app tr1 tr2 : created (tr1 ++ tr2) = created tr1 ++ created tr2.
Proof. apply omap_app. Qed.

Lemma read_app tr1 tr2 : read (tr1 ++ tr2) = read tr1 ++ read tr2.
Proof. apply omap_app. Qed.

Lemma executed_app tr1 tr2 : executed (tr1 ++ tr2) = executed tr1 ++ executed tr2.
Proof. apply omap_app. Qed.

(** What the renders of a run of [GenerateTemplate] can be. *)
Lemma GenerateTemplate_run (data : D) (in_path out_path : string) w res w' tr :
  run h (GenerateTemplate (Some data) in_path out_path) w = (res, w', tr) ->
  (res = Returned None /\ created tr = [out_path] /\ read tr = [in_path]
   /\ executed tr = [(FileWriter out_path, data)])
  \/ (res <> Returned None /\ created tr `prefix_of` [out_path]
      /\ read tr `prefix_of` [in_path]
      /\ executed tr `prefix_of` [(FileWriter out_path, data)]).
Proof.
  unfold GenerateTemplate.
  destruct (String.eqb in_path out_path).
  { intros [= <- <- <-]. right. repeat split; try discriminate; apply prefix_nil. }
  simpl. destruct (h (Create out_path) w) as [[err|] w1]; simpl.
  { intros [= <- <- <-]. right. repeat split; try discriminate;
      first [apply prefix_nil | reflexivity]. }
  destruct (h (ReadFile in_path) w1) as [[[text|]|err] w2]; simpl.
  - destruct (h (Parse text) w2) as [[t|err] w3]; simpl.
    + destruct (h (Execute t (FileWriter out_path) data) w3) as [[err|] w4]; simpl;
        destruct (h (Flush out_path) w4) as [[] w5];
        destruct (h (Close out_path) w5) as [[] w6]; simpl;
        intros [= <- <- <-]; [right|left]; repeat split; try discriminate;
        reflexivity.
    + destruct (h (Close out_path) w3) as [[] w4]. simpl.
      intros [= <- <- <-]. right. repeat split; try discriminate;
        first [reflexivity | apply prefix_nil].
  - destruct (h (Close out_path) w2) as [[] w3]. simpl.
    intros [= <- <- <-]. right. repeat split; try discriminate;
      first [reflexivity | apply prefix_nil].
  - destruct (h (Close out_path) w2) as [[] w3]. simpl.
    intros [= <- <- <-]. right. repeat split; try discriminate;
      first [reflexivity | apply prefix_nil].
Qed.

Lemma make_directories_run (directories : list string) w res w' tr :
  run h (make_directories directories) w = (res, w', tr) ->
  created tr = [] /\ read tr = [] /\ executed tr = [].
Proof.
  revert w tr. induction directories as [|dir ds IH]; intros w tr; simpl.
  - now intros [= <- <- <-].
  - destruct (h (Mkdir dir 511) w) as [[err|] w1]; simpl.
    + now intros [= <- <- <-].
    + destruct (run h (make_directories ds) w1) as [[r w2] tr1] eqn:Hrun.
      intros [= <- <- <-]. apply (IH _ _ Hrun).
Qed.

End Runs.

(** ** Runs of the orchestrator *)

Lemma Zseq_lookup (i : Z) (n k : nat) :
  (k < n)%nat -> Zseq i n !! k = Some (i + Z.of_nat k).
Proof.
  revert i k. induction n as [|n IH]; intros i k Hk; [lia|].
  destruct k as [|k]; simpl.
  - f_equal. lia.
  - rewrite IH by lia. f_equal. lia.
Qed.

Lemma Zseq_length (i : Z) (n : nat) : length (Zseq i n) = n.
Proof. revert i. induction n as [|n IH]; intros i; simpl; [reflexivity|]. now rewrite IH. Qed.

Lemma follows_lookup {A : Type} (l expected : list A) (i : nat) (x y : A) :
  follows l expected -> expected !! i = Some x -> l !! i = Some y -> y = x.
Proof.
  intros [Hp|Hp] Hx Hy.
  - pose proof (prefix_lookup_Some _ _ _ _ Hy Hp) as Hy'. congruence.
  - pose proof (prefix_lookup_Some _ _ _ _ Hx Hp) as Hx'. congruence.
Qed.

Section OrchestratorRuns.
Context {E G W : Type} `{GraphOps G} (h : Handler (Data E) W).
Context (meta : Metadata.t) (path src_dir : string).

Lemma range_executors_run (execs : list E) :
  forall i executors w res w' tr,
    run h (range_executors meta path src_dir i execs executors) w = (res, w', tr) ->
    ((exists executors', res = Returned (None, executors'))
     /\ created tr = sources_from src_dir i execs
     /\ read tr = templates_for meta path execs
     /\ executed tr = renders_from meta src_dir i execs)
    \/ ((forall executors', res <> Returned (None, executors'))
        /\ created tr `prefix_of` sources_from src_dir i execs
        /\ read tr `prefix_of` templates_for meta path execs
        /\ executed tr `prefix_of` renders_from meta src_dir i execs).
Proof.
  induction execs as [|exec execs IH]; intros i executors w res w' tr.
  - simpl. intros [= <- <- <-]. left. eauto.
  - cbn [range_executors]. rewrite run_bind.
    destruct (run h (GenerateTemplate _ _ _) w) as [[r1 w1] tr1] eqn:Hrender.
    apply GenerateTemplate_run in Hrender.
    destruct Hrender as [(-> & Hc & Hr & He)|(Hres & Hc & Hr & He)].
    + cbv beta iota.
      destruct (run h _ w1) as [[r2 w2] tr2] eqn:Hrest.
      intros [= <- <- <-].
      rewrite created_app, read_app, executed_app, Hc, Hr, He.
      apply IH in Hrest.
      destruct Hrest as [(Hres & -> & -> & ->)|(Hres & Hc2 & Hr2 & He2)].
      * left. auto.
      * right. split; [assumption|].
        repeat split; apply prefix_cons; assumption.
    + intros Hrun.
      assert (Hstop : tr = tr1 /\ forall executors', res <> Returned (None, executors')).
      { destruct r1 as [[err|]|]; [|contradiction|];
          cbn in Hrun; injection Hrun as <- <- <-; rewrite ?app_nil_r;
          (split; [reflexivity|discriminate]). }
      clear Hres. destruct Hstop as (-> & Hres).
      right. split; [exact Hres|]. repeat split.
      * etrans; [exact Hc|]. apply prefix_cons, prefix_nil.
      * etrans; [exact Hr|]. apply prefix_cons, prefix_nil.
      * etrans; [exact He|]. apply prefix_cons, prefix_nil.
Qed.

Lemma sources_from_lookup (execs : list E) (k : nat) (exec : E) :
  execs !! k = Some exec ->
  sources_from src_dir 0 execs !! k = Some (executor_source src_dir (Z.of_nat k)).
Proof.
  intros Hk. apply lookup_lt_Some in Hk. unfold sources_from.
  rewrite list_lookup_fmap, Zseq_lookup by assumption. reflexivity.
Qed.

Lemma templates_for_lookup (execs : list E) (k : nat) (exec : E) :
  execs !! k = Some exec -> templates_for meta path execs !! k = Some (executor_template meta path).
Proof. intros Hk. unfold templates_for. now rewrite list_lookup_fmap, Hk. Qed.

Lemma renders_from_lookup (execs : list E) (k : nat) (exec : E) :
  execs !! k = Some exec ->
  renders_from meta src_dir 0 execs !! k
  = Some (FileWriter (executor_source src_dir (Z.of_nat k)),
          ExecutorData (ros_executor meta exec)).
Proof.
  intros Hk. unfold renders_from.
  rewrite lookup_zip_with, Zseq_lookup, Hk by (now apply lookup_lt_Some in Hk).
  reflexivity.
Qed.

End OrchestratorRuns.

Section GenerateApplicationRuns.
Context {E G W : Type} `{GraphOps G} (h : Handler (Data E) W).

Lemma GenerateApplication_run (a : app.Application E) (path : string)
    (meta : Metadata.t) (gd : Graphdata.t G) w res w' tr :
  run h (GenerateApplication (Some a) path meta gd) w = (res, w', tr) ->
  let src_dir := (stripped path +:+ "/" +:+ app.Name a) +:+ "/src" in
  let sources := sources_from src_dir 0 (app.Executors a) in
  let templates := templates_for meta (stripped path) (app.Executors a) in
  let renders := renders_from meta src_dir 0 (app.Executors a) in
  (follows (created tr) sources /\ follows (read tr) templates
   /\ follows (executed tr) renders)
  /\ (res = Returned None ->
      sources `prefix_of` created tr /\ templates `prefix_of` read tr
      /\ renders `prefix_of` executed tr).
Proof.
  unfold GenerateApplication. cbv zeta. fold (stripped path).
  rewrite run_bind.
  destruct (run h (make_directories _) w) as [[r0 w0] tr0] eqn:Hmk.
  apply make_directories_run in Hmk as (Hc0 & Hr0 & He0).
  destruct r0 as [[err|]|].
  - cbn. intros [= <- <- <-]. rewrite app_nil_r, Hc0, Hr0, He0.
    split; [|discriminate]. repeat split; left; apply prefix_nil.
  - cbv beta iota. rewrite run_bind.
    destruct (run h (range_executors _ _ _ _ _ _) w0) as [[r1 w1] tr1] eqn:Hloop.
    apply range_executors_run in Hloop.
    destruct Hloop as [([executors ->] & Hc & Hr & He)|(Hres & Hc & Hr & He)].
    + cbv beta iota. destruct (run h _ w1) as [[r2 w2] tr2].
      intros [= <- <- <-].
      rewrite !created_app, !read_app, !executed_app, Hc0, Hr0, He0, Hc, Hr, He.
      cbn [app].
      split; [|intros _]; repeat split; try right; apply prefix_app_r; reflexivity.
    + intros Hrun.
      assert (Hstop : tr = tr0 ++ tr1 /\ res <> Returned None).
      { destruct r1 as [[[err|] executors]|].
        - cbn in Hrun. injection Hrun as <- <- <-. rewrite app_nil_r.
          split; [reflexivity|discriminate].
        - now destruct (Hres executors).
        - injection Hrun as <- <- <-. split; [reflexivity|discriminate]. }
      destruct Hstop as (-> & Hfail).
      rewrite !created_app, !read_app, !executed_app, Hc0, Hr0, He0. cbn [app].
      split; [|contradiction]. repeat split; left; assumption.
  - intros [= <- <- <-]. rewrite Hc0, Hr0, He0.
    split; [|discriminate]. repeat split; left; apply prefix_nil.
Qed.

End GenerateApplicationRuns.

(** ** The functions on concrete inputs *)

Example sync_data_runs : graph_to_graphviz Examples.sync_data = Some Examples.sync_diagram.
Proof. vm_compute. reflexivity. Qed.

(** Both nodes of two chains of length one are drawn, though no edge
    touches them. *)
Example singleton_data_runs :
  graph_to_graphviz Examples.singleton_data = Some Examples.singleton_diagram.
Proof. vm_compute. reflexivity. Qed.

(** A chain of two nodes gives two circles and one link from 0 to 1. *)
Example chain_data_runs :
  graph_to_graphviz Examples.chain_data
  = Some {| Graphviz_graph.Nodes :=
              [ chain_node Examples.chain_data 0; chain_node Examples.chain_data 1 ];
            Graphviz_graph.Links :=
              [ {| Link.From := 0; Link.To := 1; Link.Color := "black";
                   Link.Label := "0.0" |} ] |}.
Proof. vm_compute. reflexivity. Qed.

(** The conversion panics on a disconnected node that is in no chain. *)
Example stray_data_panics : graph_to_graphviz Examples.stray_data = None.
Proof. vm_compute. reflexivity. Qed.

(** The whole generation succeeds although [dot] exits with a failure. *)
Example demo_run_succeeds : fst (fst Examples.demo_run) = Returned None.
Proof. vm_compute. reflexivity. Qed.

Example demo_run_creates :
  created (snd Examples.demo_run)
  = [ "ws/demo/src/executor_0.cpp"; "ws/demo/src/executor_1.cpp";
      "ws/demo/CMakeLists.txt"; "ws/demo/package.xml";
      "ws/demo/launch/demo_launch.py" ].
Proof. vm_compute. reflexivity. Qed.

Example Split_samples :
  Split "" "/" = [""] /\ Split "a/b/c" "/" = ["a"; "b"; "c"]
  /\ Split "/a/" "/" = [""; "a"; ""] /\ Split "" "" = [].
Proof. repeat split. Qed.

(** * The claims *)

Section GraphvizClaims.
Context {G : Type} `{GraphOps G}.

(** C1 (amended).  Every node of the diagram that [graph_to_graphviz]
    returns is classified by its index [i]: below the sum of all chain
    lengths it is a chain node, a circle filled white whose label is
    [N<i>], a line feed, [(wcet=<w> us)], a line feed and [prio=<p>], with
    [w] and [p] read from the two maps (0 for a missing key); from that sum
    on it is a synchronization node, a diamond filled [#FFE74C] whose label
    is exactly [N<i>], a line feed and [(SYNC)].  The separators are line
    feeds, not spaces. *)
Theorem graph_to_graphviz_classifies_nodes
    (gd : Graphdata.t G) (out : Graphviz_graph.t) (nd : Node.t) :
  graph_to_graphviz gd = Some out ->
  In nd (Graphviz_graph.Nodes out) ->
  let i := Node.Id nd in
  (i < NodeCount (Graphdata.Chains gd) ->
   Node.Shape nd = "circle" /\ Node.Fill nd = "#FFFFFF" /\
   Node.Label nd
   = "N" +:+ Sprintf_d i +:+ nl +:+
     "(wcet=" +:+ Sprintf_d (map_get (Graphdata.Node_wcet_map gd) i) +:+ " us)" +:+ nl +:+
     "prio=" +:+ Sprintf_d (map_get (Graphdata.Node_prio_map gd) i))
  /\ (NodeCount (Graphdata.Chains gd) <= i ->
      Node.Shape nd = "diamond" /\ Node.Fill nd = "#FFE74C" /\
      Node.Label nd = "N" +:+ Sprintf_d i +:+ nl +:+ "(SYNC)").
Proof.
  intros Hrun Hin. rewrite (graph_to_graphviz_nodes _ _ Hrun) in Hin.
  apply in_map_iff in Hin as (k & <- & _). rewrite node_of_Id.
  unfold node_of.
  destruct (Z.ltb_spec k (NodeCount (Graphdata.Chains gd))); simpl;
    split; intros; solve [lia | auto].
Qed.


(** C3.  For an ordered pair [(i, j)] of node indices, the links from [i]
    to [j] in the diagram that [graph_to_graphviz] returns are, in order,
    one link for each of the [k] edges that [ops.EdgesAt(i, j, g)] lists:
    it carries the color of that edge and the label [<tag>.<num>].  There
    are exactly [k] of them, none when the pair has no edge. *)
Theorem graph_to_graphviz_links_of_pair
    (gd : Graphdata.t G) (out : Graphviz_graph.t) (i j : Z) :
  graph_to_graphviz gd = Some out ->
  0 <= i < Len (Graphdata.Graph gd) ->
  0 <= j < Len (Graphdata.Graph gd) ->
  let edges := EdgesAt i j (Graphdata.Graph gd) in
  let links := List.filter (link_between i j) (Graphviz_graph.Links out) in
  links
  = map (fun e => {| Link.From := i; Link.To := j; Link.Color := graph.Color e;
                     Link.Label := Sprintf_d (graph.Tag e) +:+ "." +:+
                                   Sprintf_d (graph.Num e) |}) edges
  /\ length links = length edges.
Proof.
  intros Hrun Hi Hj edges links. subst links.
  rewrite (graph_to_graphviz_links _ _ Hrun), filter_all_links by assumption.
  split; [reflexivity|apply length_map].
Qed.

(** C4.  On the same graph, [application_to_graphviz] returns the very
    list of links of [graph_to_graphviz]; it keeps the application pointer
    as it is and has no node list, so that no node is filtered or styled. *)
Theorem application_to_graphviz_same_links {Executor : Type}
    (a : option (app.Application Executor)) (gd : Graphdata.t G)
    (out : Graphviz_graph.t) :
  graph_to_graphviz gd = Some out ->
  Graphviz_application.Links (application_to_graphviz a (Graphdata.Graph gd))
  = Graphviz_graph.Links out
  /\ Graphviz_application.App (application_to_graphviz a (Graphdata.Graph gd)) = a.
Proof.
  intros Hrun. split; [|reflexivity].
  rewrite (graph_to_graphviz_links _ _ Hrun).
  unfold application_to_graphviz. simpl. now rewrite application_links_i_app.
Qed.

End GraphvizClaims.

(** C1 as stated fails: the label of the synchronization node 1 of
    [Examples.sync_data] is not [N1 (SYNC)] with a space. *)
Lemma sync_label_is_not_spaced :
  exists out nd,
    graph_to_graphviz Examples.sync_data = Some out
    /\ In nd (Graphviz_graph.Nodes out)
    /\ NodeCount (Graphdata.Chains Examples.sync_data) <= Node.Id nd
    /\ Node.Label nd <> "N" +:+ Sprintf_d (Node.Id nd) +:+ " (SYNC)".
Proof.
  exists Examples.sync_diagram, Examples.sync_node_1.
  split; [vm_compute; reflexivity|].
  split; [right; left; reflexivity|].
  split; [vm_compute; discriminate|].
  vm_compute. discriminate.
Qed.

Lemma graph_to_graphviz_classifies_nodes_witness :
  Node.Shape Examples.sync_node_1 = "diamond"
  /\ Node.Fill Examples.sync_node_1 = "#FFE74C"
  /\ Node.Label Examples.sync_node_1 = "N" +:+ Sprintf_d 1 +:+ nl +:+ "(SYNC)".
Proof.
  apply (graph_to_graphviz_classifies_nodes
           Examples.sync_data Examples.sync_diagram Examples.sync_node_1).
  - vm_compute. reflexivity.
  - right. left. reflexivity.
  - vm_compute. discriminate.
Defined.


Lemma graph_to_graphviz_links_of_pair_witness :
  List.filter (link_between 0 1) (Graphviz_graph.Links Examples.sync_diagram)
  = [ {| Link.From := 0; Link.To := 1; Link.Color := "red"; Link.Label := "0.1" |};
      {| Link.From := 0; Link.To := 1; Link.Color := "blue"; Link.Label := "0.2" |} ]
  /\ length (List.filter (link_between 0 1)
                         (Graphviz_graph.Links Examples.sync_diagram)) = 2%nat.
Proof.
  assert (Hrun : graph_to_graphviz Examples.sync_data = Some Examples.sync_diagram)
    by (vm_compute; reflexivity).
  assert (Hi : 0 <= 0 < Len (Graphdata.Graph Examples.sync_data))
    by (vm_compute; split; [discriminate|reflexivity]).
  assert (Hj : 0 <= 1 < Len (Graphdata.Graph Examples.sync_data))
    by (vm_compute; split; [discriminate|reflexivity]).
  exact (graph_to_graphviz_links_of_pair
           Examples.sync_data Examples.sync_diagram 0 1 Hrun Hi Hj).
Defined.

Lemma application_to_graphviz_same_links_witness :
  Graphviz_application.Links
    (application_to_graphviz (Some Examples.demo_app)
                             (Graphdata.Graph Examples.sync_data))
  = Graphviz_graph.Links Examples.sync_diagram
  /\ Graphviz_application.App
       (application_to_graphviz (Some Examples.demo_app)
                                (Graphdata.Graph Examples.sync_data))
     = Some Examples.demo_app.
Proof.
  apply (application_to_graphviz_same_links
           (Some Examples.demo_app) Examples.sync_data Examples.sync_diagram).
  vm_compute. reflexivity.
Defined.

Section RendererClaims.
Context {D W : Type} (h : Handler D W).

(** C5.  With data present and the template path equal to the output
    path, [GenerateTemplate] returns the argument error "input file
    (template) cannot be same as output file" in every environment, without
    a single call: no file is created, read or written, and the environment
    is left as it was. *)
Theorem GenerateTemplate_same_path (data : D) (p : string) (w : W) :
  run h (GenerateTemplate (Some data) p p) w
  = (Returned (Some "input file (template) cannot be same as output file"), w, []).
Proof. unfold GenerateTemplate. now rewrite String.eqb_refl. Qed.

(** C6.  When [exec.LookPath] fails for the command, [GenerateWithCommand]
    returns the error "Cannot find command ..." whatever the data is,
    present or absent, and [LookPath] is the only call it makes: the
    template is not read.  When the command resolves and the data is
    absent, it returns "bad input: null pointer", again after [LookPath]
    alone. *)
Theorem GenerateWithCommand_checks_command_first
    (path command : string) (args : list string) (w : W) :
  (forall (data : option D) (err : error) (w1 : W),
      h (LookPath command) w = (Err err, w1) ->
      run h (GenerateWithCommand path command args data) w
      = (Returned (Some ("Cannot find command " +:+ dquote +:+ command +:+ dquote
                         +:+ ": " +:+ err)),
         w1, [Ev (LookPath command) (Err err)]))
  /\ (forall (resolved : string) (w1 : W),
         h (LookPath command) w = (Ok resolved, w1) ->
         run h (GenerateWithCommand path command args None) w
         = (Returned (Some "bad input: null pointer"),
            w1, [Ev (LookPath command) (Ok resolved)])).
Proof.
  split; intros; unfold GenerateWithCommand; simpl;
    match goal with Hlook : h _ w = _ |- _ => rewrite Hlook end; reflexivity.
Qed.

(** C10.  Take any run of [GenerateWithCommand] on present data in which
    the command resolved, the template was read and parsed, and its
    execution succeeded.  The run returns nil, and it started the command:
    the exit status that [cmd.Run()] reports is not looked at, so the
    result is nil also when the command fails. *)
Theorem GenerateWithCommand_ignores_exit_status
    (path command : string) (args : list string) (data : D)
    (w : W) (res : Outcome (option error)) (w' : W) (tr : list (Event D)) :
  run h (GenerateWithCommand path command args (Some data)) w = (res, w', tr) ->
  forallb step_succeeded tr = true ->
  res = Returned None
  /\ exists status : option error, In (Ev (Go_Run command args) status) tr.
Proof.
  unfold GenerateWithCommand. simpl.
  destruct (h (LookPath command) w) as [[resolved|err] w1]; simpl;
    [|intros [= <- <- <-]; discriminate].
  destruct (h (ReadFile path) w1) as [[[text|]|err] w2]; simpl;
    [|intros [= <- <- <-]; discriminate..].
  destruct (h (Parse text) w2) as [[t|err] w3]; simpl;
    [|intros [= <- <- <-]; discriminate].
  destruct (h (Go_Run command args) w3) as [status w4]; simpl.
  destruct (h (Execute t PipeWriter data) w4) as [[err|] w5]; simpl;
    destruct (h Pipe_Close w5) as [[] w6]; simpl;
    intros [= <- <- <-]; [discriminate|].
  intros _. split; [reflexivity|]. exists status. simpl. auto.
Qed.

(** The exit status has no way into the result: two environments that
    differ in nothing but the answers to [Go_Run] give the same outcome and
    end in the same state. *)
Lemma GenerateWithCommand_status_irrelevant (h2 : Handler D W)
    (path command : string) (args : list string) (data : option D) (w : W) :
  (forall (o : Op D) (w0 : W),
      match o return Prop with
      | Go_Run _ _ => snd (h o w0) = snd (h2 o w0)
      | _ => h o w0 = h2 o w0
      end) ->
  fst (run h (GenerateWithCommand path command args data) w)
  = fst (run h2 (GenerateWithCommand path command args data) w).
Proof.
  intros Hsame. unfold GenerateWithCommand. simpl.
  rewrite <- (Hsame (LookPath command) w).
  destruct (h (LookPath command) w) as [[resolved|err] w1]; simpl; [|reflexivity].
  destruct data as [data|]; simpl; [|reflexivity].
  rewrite <- (Hsame (ReadFile path) w1).
  destruct (h (ReadFile path) w1) as [[[text|]|err] w2]; simpl; try reflexivity.
  rewrite <- (Hsame (Parse text) w2).
  destruct (h (Parse text) w2) as [[t|err] w3]; simpl; [|reflexivity].
  pose proof (Hsame (Go_Run command args) w3) as Hgo.
  destruct (h (Go_Run command args) w3) as [status w4].
  destruct (h2 (Go_Run command args) w3) as [status2 w4']. simpl in Hgo. subst w4'.
  simpl.
  rewrite <- (Hsame (Execute t PipeWriter data) w4).
  destruct (h (Execute t PipeWriter data) w4) as [err w5]; simpl.
  rewrite <- (Hsame Pipe_Close w5).
  destruct (h Pipe_Close w5) as [[] w6]; simpl.
  now destruct err.
Qed.

End RendererClaims.

Lemma GenerateWithCommand_checks_command_first_witness :
  run Sim.handle (GenerateWithCommand "graph.dt" "dot" ["-Tpng"] (Some 7))
      Examples.bare_world
  = (Returned (Some ("Cannot find command " +:+ dquote +:+ "dot" +:+ dquote
                     +:+ ": executable file not found in $PATH")),
     Examples.bare_world,
     [Ev (LookPath "dot") (Err "executable file not found in $PATH")])
  /\ run Sim.handle (GenerateWithCommand "graph.dt" "dot" ["-Tpng"] (@None Z))
         Examples.demo_world
     = (Returned (Some "bad input: null pointer"), Examples.demo_world,
        [Ev (LookPath "dot") (Ok "/usr/bin/dot")]).
Proof.
  split.
  - apply (proj1 (GenerateWithCommand_checks_command_first
                    Sim.handle "graph.dt" "dot" ["-Tpng"] Examples.bare_world)).
    reflexivity.
  - apply (proj2 (GenerateWithCommand_checks_command_first
                    Sim.handle "graph.dt" "dot" ["-Tpng"] Examples.demo_world)).
    reflexivity.
Defined.

Lemma GenerateWithCommand_ignores_exit_status_witness :
  Sim.exit_status Examples.demo_world = Some "exit status 1"
  /\ fst (fst Examples.dot_run) = Returned None
  /\ exists status, In (Ev (Go_Run "dot" ["-Tpng"]) status) (snd Examples.dot_run).
Proof.
  split; [reflexivity|].
  apply (GenerateWithCommand_ignores_exit_status
           Sim.handle "ws/templates/graph.dt" "dot" ["-Tpng"] 7 Examples.demo_world
           (fst (fst Examples.dot_run)) (snd (fst Examples.dot_run))
           (snd Examples.dot_run)).
  - unfold Examples.dot_run. now destruct (run _ _ _) as [[res w'] tr].
  - vm_compute. reflexivity.
Defined.

(** C7 as stated fails: for the empty path [filename_from_path] returns
    the empty name and no error, and [filenames_from_paths] does not fail
    on a list that holds the empty path. *)
Lemma filename_from_path_empty_no_error :
  filename_from_path "" = ("", None)
  /\ ~ (exists err, snd (filename_from_path "") = Some err)
  /\ filenames_from_paths ["lib/libppe.a"; ""] = (["libppe.a"; ""], None).
Proof.
  split; [reflexivity|]. split; [|reflexivity].
  intros [err Herr]. vm_compute in Herr. discriminate.
Qed.

(** C7 (amended).  [filename_from_path] never returns an error:
    [strings.Split] with the separator [/] yields at least one element for
    every path, the empty path included, for which the name is empty.
    Consequently [filenames_from_paths] never fails either, whatever its
    list holds. *)
Theorem filename_extraction_never_fails :
  (forall path, snd (filename_from_path path) = None)
  /\ (forall path, Split path "/" <> [])
  /\ filename_from_path "" = ("", None)
  /\ (forall paths, snd (filenames_from_paths paths) = None).
Proof.
  split; [|split; [|split]].
  - intros path. now destruct (filename_from_path_basename path) as (f & -> & _).
  - intros path. unfold Split. simpl String.eqb.
    apply split_loop_slash. lia.
  - reflexivity.
  - intros paths. unfold filenames_from_paths. now rewrite range_paths_app.
Qed.

(** C8.  For every list of paths, in particular every non-empty list of
    non-empty paths, [filenames_from_paths] succeeds and returns as many
    names as there are paths; the name at each index is what follows the
    last [/] of the path at that index: it holds no [/], and the path ends
    with [/] and the name, or is the name when it holds no [/]. *)
Theorem filenames_from_paths_basenames (paths : list string) :
  exists filenames,
    filenames_from_paths paths = (filenames, None)
    /\ length filenames = length paths
    /\ forall (i : nat) (path : string),
         paths !! i = Some path ->
         exists f, filenames !! i = Some f
                   /\ contains slash f = false
                   /\ (path = f \/ exists pre, path = pre +:+ "/" +:+ f).
Proof.
  exists (map (fun path => fst (filename_from_path path)) paths).
  unfold filenames_from_paths. rewrite range_paths_app. simpl.
  split; [reflexivity|]. split; [apply length_map|].
  intros i path Hi.
  destruct (filename_from_path_basename path) as (f & Hf & Hno & Hlast).
  exists f. split; [|split; assumption].
  change (map ?g paths) with (g <$> paths).
  rewrite list_lookup_fmap, Hi. simpl. now rewrite Hf.
Qed.

Section OrchestratorClaims.
Context {E G W : Type} `{GraphOps G} (h : Handler (Data E) W).

(** C9.  In every run of [GenerateApplication], the executor at index [i]
    of the application is the [i]-th render, in declared order: the [i]-th
    file created is [executor_<i>.cpp] in the [src] directory, the [i]-th
    file read is the template [executor_<Logging_mode>.tmpl], and the
    [i]-th template execution writes that file from the record of that
    executor.  A run that returns nil has made all of them.  The logging
    mode appears in the name of the template alone. *)
Theorem GenerateApplication_renders_executors
    (a : app.Application E) (path : string) (meta : Metadata.t)
    (gd : Graphdata.t G) (w : W) (res : Outcome (option error)) (w' : W)
    (tr : list (Event (Data E))) :
  run h (GenerateApplication (Some a) path meta gd) w = (res, w', tr) ->
  forall (i : nat) (exec : E),
    app.Executors a !! i = Some exec ->
    let root_dir := stripped path +:+ "/" +:+ app.Name a in
    let src_dir := root_dir +:+ "/src" in
    let out := src_dir +:+ "/executor_" +:+ Sprintf_d (Z.of_nat i) +:+ ".cpp" in
    let tmpl := stripped path +:+ "/templates/executor_"
                +:+ Sprintf_d (Metadata.Logging_mode meta) +:+ ".tmpl" in
    let render := (FileWriter out, ExecutorData (ros_executor meta exec)) in
    (forall name, created tr !! i = Some name -> name = out)
    /\ (forall name, read tr !! i = Some name -> name = tmpl)
    /\ (forall x, executed tr !! i = Some x -> x = render)
    /\ (res = Returned None ->
        created tr !! i = Some out /\ read tr !! i = Some tmpl
        /\ executed tr !! i = Some render).
Proof.
  intros Hrun i exec Hi root_dir src_dir out tmpl render.
  apply GenerateApplication_run in Hrun. cbv zeta in Hrun.
  destruct Hrun as ((Hc & Hr & He) & Hok).
  pose proof (sources_from_lookup src_dir _ _ _ Hi) as Hsrc.
  pose proof (templates_for_lookup meta (stripped path) _ _ _ Hi) as Htmpl.
  pose proof (renders_from_lookup meta src_dir _ _ _ Hi) as Hrender.
  split; [|split; [|split]].
  - intros name. now apply follows_lookup with (1 := Hc).
  - intros name. now apply follows_lookup with (1 := Hr).
  - intros x. now apply follows_lookup with (1 := He).
  - intros Hres. apply Hok in Hres as (Hpc & Hpr & Hpe).
    repeat split; eapply prefix_lookup_Some; eassumption.
Qed.

End OrchestratorClaims.

Lemma GenerateApplication_renders_executors_witness :
  fst (fst Examples.demo_run) = Returned None
  /\ created (snd Examples.demo_run) !! 1%nat = Some "ws/demo/src/executor_1.cpp"
  /\ read (snd Examples.demo_run) !! 1%nat = Some "ws/templates/executor_0.tmpl"
  /\ executed (snd Examples.demo_run) !! 1%nat
     = Some (FileWriter "ws/demo/src/executor_1.cpp",
             ExecutorData (ros_executor Examples.demo_meta "second")).
Proof.
  assert (Hrun : run Sim.handle
                     (GenerateApplication (Some Examples.demo_app) "ws/"
                        Examples.demo_meta Examples.chain_data)
                     Examples.demo_world
                 = (fst (fst Examples.demo_run), snd (fst Examples.demo_run),
                    snd Examples.demo_run)).
  { unfold Examples.demo_run. now destruct (run _ _ _) as [[res w'] tr]. }
  assert (Hok : fst (fst Examples.demo_run) = Returned None)
    by (vm_compute; reflexivity).
  split; [exact Hok|].
  exact (proj2 (proj2 (proj2
           (GenerateApplication_renders_executors Sim.handle
              Examples.demo_app "ws/" Examples.demo_meta Examples.chain_data
              Examples.demo_world _ _ _ Hrun 1%nat "second" eq_refl))) Hok).
Defined.

(** * Further properties *)

(** ** The Graphviz conversions *)

Lemma Zseq_sorted (i : Z) (n : nat) : StronglySorted Z.lt (Zseq i n).
Proof.
  revert i. induction n as [|n IH]; intros i; simpl; constructor.
  - apply IH.
  - apply List.Forall_forall. intros k Hk. apply In_Zseq in Hk. lia.
Qed.

Lemma filter_sorted {A : Type} (R : A -> A -> Prop) (p : A -> bool) (l : list A) :
  StronglySorted R l -> StronglySorted R (List.filter p l).
Proof.
  induction 1 as [|a l Hl IH Ha]; simpl; [constructor|].
  destruct (p a); [|assumption]. constructor; [assumption|].
  apply List.Forall_forall. intros x Hx. apply filter_In in Hx as [Hx _].
  rewrite List.Forall_forall in Ha. now apply Ha.
Qed.

Section GraphvizOrder.
Context {G : Type} `{GraphOps G}.
Implicit Types (gd : Graphdata.t G) (g : G).

Lemma nodes_for_i_None gd c n i nodes :
  nodes_for_i gd c n i nodes = None ->
  exists k, i <= k < i + Z.of_nat n /\ node_drawn gd k = None.
Proof.
  revert i nodes. induction n as [|n IH]; intros i nodes; simpl; [discriminate|].
  destruct (node_drawn gd i) as [b|] eqn:Hi; simpl.
  - intros Hn. apply IH in Hn as (k & Hk & Hnone). exists k. split; [lia|assumption].
  - intros _. exists i. split; [lia|assumption].
Qed.

Lemma node_drawn_None gd i :
  node_drawn gd i = None <->
  Disconnected i (Graphdata.Graph gd) = true
  /\ ~ (0 <= ChainForRow i (Graphdata.Chains gd) < Z.of_nat (length (Graphdata.Chains gd))).
Proof.
  unfold node_drawn, length_one_chain, index.
  destruct (Disconnected i _); simpl.
  - destruct (Z.ltb_spec (ChainForRow i (Graphdata.Chains gd)) 0) as [Hneg|Hpos]; simpl.
    + split; [intros _; split; [reflexivity|lia]|reflexivity].
    + destruct (Graphdata.Chains gd !! _) as [c|] eqn:Hl; simpl.
      * apply lookup_lt_Some in Hl. split; [discriminate|]. intros [_ Hout]. lia.
      * apply lookup_ge_None in Hl. split; [|reflexivity]. intros _. split; [reflexivity|lia].
  - split; [discriminate|]. intros [Hd _]. discriminate.
Qed.

Lemma nodes_for_i_Some gd c n i nodes nodes' :
  nodes_for_i gd c n i nodes = Some nodes' ->
  forall k, i <= k < i + Z.of_nat n -> node_drawn gd k <> None.
Proof.
  revert i nodes. induction n as [|n IH]; intros i nodes; simpl; [intros; lia|].
  destruct (node_drawn gd i) as [b|] eqn:Hi; simpl; [|discriminate].
  intros Hn k Hk. destruct (Z.eq_dec k i) as [->|Hne]; [congruence|].
  apply (IH _ _ Hn). lia.
Qed.

(** X1.  [graph_to_graphviz] panics exactly when some node of the graph is
    disconnected and [ops.ChainForRow] gives it an index outside
    [graph_data.Chains]: the closure [length_one_chain] then indexes the
    slice out of range.  On every other input it returns a diagram. *)
Theorem graph_to_graphviz_panics_iff gd :
  graph_to_graphviz gd = None <->
  exists i, 0 <= i < Len (Graphdata.Graph gd)
            /\ Disconnected i (Graphdata.Graph gd) = true
            /\ ~ (0 <= ChainForRow i (Graphdata.Chains gd)
                  < Z.of_nat (length (Graphdata.Chains gd))).
Proof.
  unfold graph_to_graphviz.
  destruct (nodes_for_i _ _ _ _ _) as [nodes|] eqn:Hn; simpl; split;
    try discriminate; try reflexivity.
  - intros (i & Hi & Hbad). exfalso.
    apply (nodes_for_i_Some _ _ _ _ _ _ Hn i); [lia|].
    now apply node_drawn_None.
  - intros _. apply nodes_for_i_None in Hn as (k & Hk & Hnone).
    apply node_drawn_None in Hnone as [Hd Hout].
    exists k. split; [lia|]. split; assumption.
Qed.

(** X2.  The nodes of a returned diagram are listed by strictly increasing
    id, so no node index appears twice, and every id is an index of the
    graph. *)
Theorem graph_to_graphviz_nodes_ascending gd out :
  graph_to_graphviz gd = Some out ->
  StronglySorted Z.lt (map Node.Id (Graphviz_graph.Nodes out))
  /\ NoDup (map Node.Id (Graphviz_graph.Nodes out))
  /\ Forall (fun i => 0 <= i < Len (Graphdata.Graph gd))
            (map Node.Id (Graphviz_graph.Nodes out)).
Proof.
  intros Hrun. rewrite (graph_to_graphviz_nodes _ _ Hrun), map_map.
  rewrite (map_ext _ (fun i => i)) by apply node_of_Id. rewrite map_id.
  assert (Hsorted : StronglySorted Z.lt
            (List.filter (drawn gd) (Zseq 0 (Z.to_nat (Len (Graphdata.Graph gd))))))
    by apply filter_sorted, Zseq_sorted.
  split; [exact Hsorted|]. split.
  - clear Hrun. induction Hsorted as [|a l Hl IH Ha]; constructor; [|assumption].
    rewrite List.Forall_forall in Ha. intros Hin.
    apply list_elem_of_In, Ha in Hin. lia.
  - apply List.Forall_forall. intros i Hi.
    apply filter_In in Hi as [Hi _]. apply In_Zseq in Hi. lia.
Qed.

Lemma sorted_app {A : Type} (R : A -> A -> Prop) (l1 l2 : list A) :
  StronglySorted R l1 -> StronglySorted R l2 ->
  (forall x y, In x l1 -> In y l2 -> R x y) ->
  StronglySorted R (l1 ++ l2).
Proof.
  induction 1 as [|a l Hl IH Ha]; intros H2 Hcross; simpl; [assumption|].
  constructor.
  - apply IH; [assumption|]. intros x y Hx Hy. apply Hcross; simpl; auto.
  - apply List.Forall_forall. intros y Hy. apply in_app_or in Hy as [Hy|Hy].
    + rewrite List.Forall_forall in Ha. now apply Ha.
    + apply Hcross; simpl; auto.
Qed.

Lemma In_row_links g i js l :
  In l (row_links g i js) -> Link.From l = i /\ In (Link.To l) js.
Proof.
  unfold row_links. intros Hin. apply in_flat_map in Hin as (j & Hj & Hl).
  apply in_map_iff in Hl as (e & <- & _). simpl. auto.
Qed.

Lemma row_links_sorted g i js :
  StronglySorted Z.lt js -> StronglySorted link_le (row_links g i js).
Proof.
  induction 1 as [|j js Hjs IH Hj]; simpl; [constructor|].
  apply sorted_app; [|exact IH|].
  - induction (EdgesAt i j g) as [|e es IHes]; simpl; constructor; [assumption|].
    apply List.Forall_forall. intros l Hl. apply in_map_iff in Hl as (e' & <- & _).
    right. simpl. lia.
  - intros x y Hx Hy. apply in_map_iff in Hx as (e & <- & _).
    apply In_row_links in Hy as [Hfrom Hto].
    rewrite List.Forall_forall in Hj. apply Hj in Hto.
    right. simpl. lia.
Qed.

Lemma all_links_sorted g :
  StronglySorted link_le (all_links g)
  /\ Forall (fun l => 0 <= Link.From l < Len g /\ 0 <= Link.To l < Len g) (all_links g).
Proof.
  unfold all_links. split.
  - generalize (Zseq_sorted 0 (Z.to_nat (Len g))).
    generalize (Zseq 0 (Z.to_nat (Len g))) at 1 3. intros rows.
    induction 1 as [|i rows Hrows IH Hi]; simpl; [constructor|].
    apply sorted_app; [apply row_links_sorted, Zseq_sorted|exact IH|].
    intros x y Hx Hy. apply In_row_links in Hx as [Hx _].
    apply in_flat_map in Hy as (i' & Hi' & Hy). apply In_row_links in Hy as [Hy _].
    rewrite List.Forall_forall in Hi. apply Hi in Hi'. left. lia.
  - apply List.Forall_forall. intros l Hl.
    apply in_flat_map in Hl as (i & Hi & Hl). apply In_row_links in Hl as [<- Hto].
    apply In_Zseq in Hi, Hto. lia.
Qed.

(** X3.  [application_to_graphviz] lists the links in row-major order, by
    source and then by destination, the parallel edges of a pair side by
    side; both ends of every link are indices of the graph. *)
Theorem application_to_graphviz_links_row_major {Executor : Type}
    (a : option (app.Application Executor)) g :
  let links := Graphviz_application.Links (application_to_graphviz a g) in
  StronglySorted link_le links
  /\ Forall (fun l => 0 <= Link.From l < Len g /\ 0 <= Link.To l < Len g) links.
Proof.
  unfold application_to_graphviz. simpl. rewrite application_links_i_app.
  apply all_links_sorted.
Qed.

(** X4.  [graph_to_graphviz] lists the links of a diagram it returns in
    row-major order, by source and then by destination; both ends of every
    link are indices of the graph. *)
Theorem graph_to_graphviz_links_row_major gd out :
  graph_to_graphviz gd = Some out ->
  StronglySorted link_le (Graphviz_graph.Links out)
  /\ Forall (fun l => 0 <= Link.From l < Len (Graphdata.Graph gd)
                      /\ 0 <= Link.To l < Len (Graphdata.Graph gd))
            (Graphviz_graph.Links out).
Proof.
  intros Hrun. rewrite (graph_to_graphviz_links _ _ Hrun). apply all_links_sorted.
Qed.

End GraphvizOrder.

(** ** Properties of every run *)

Section Always.
Context {D W : Type} (h : Handler D W).

Context (P : list (Event D) -> bool -> Prop).
Hypothesis P_app : forall tr1 tr2 b, P tr1 false -> P tr2 b -> P (tr1 ++ tr2) b.

Lemma always_Ret {R : Type} (r : R) : P [] false -> always h P (@Ret D R r).
Proof. intros Hnil w res w' tr [= <- <- <-]. exact Hnil. Qed.

Lemma always_Panic {R : Type} : P [] true -> always h P (@Panic D R).
Proof. intros Hnil w res w' tr [= <- <- <-]. exact Hnil. Qed.

Lemma always_bind {A B : Type} (p : Prog D A) (f : A -> Prog D B) :
  always h P p -> (forall a, always h P (f a)) -> always h P (bind p f).
Proof.
  intros Hp Hf w res w' tr. rewrite run_bind.
  destruct (run h p w) as [[[a|] w1] tr1] eqn:Hrun1.
  - destruct (run h (f a) w1) as [[r w2] tr2] eqn:Hrun2.
    intros [= <- <- <-]. apply P_app.
    + exact (Hp _ _ _ _ Hrun1).
    + exact (Hf _ _ _ _ _ Hrun2).
  - intros [= <- <- <-]. exact (Hp _ _ _ _ Hrun1).
Qed.

Lemma always_call (o : Op D) : (forall x, P [Ev o x] false) -> always h P (call o).
Proof.
  intros Hev w res w' tr. unfold call. simpl.
  destruct (h o w) as [x w1]. intros [= <- <- <-]. apply Hev.
Qed.

Lemma always_Do {R : Type} (o : Op D) (k : Resp o -> Prog D R) :
  (forall x, P [Ev o x] false) -> (forall x, always h P (k x)) -> always h P (Do o k).
Proof.
  intros Hev Hk w res w' tr. simpl.
  destruct (h o w) as [x w1]. destruct (run h (k x) w1) as [[r w2] tr1] eqn:Hrun.
  intros [= <- <- <-]. apply (P_app [Ev o x]); [apply Hev|].
  exact (Hk _ _ _ _ _ Hrun).
Qed.

End Always.

(** ** File handles *)

Section Handles.
Context {D W : Type} (h : Handler D W).
Implicit Types (tr : list (Event D)).

Lemma open_after_app open tr1 tr2 :
  open_after open (tr1 ++ tr2)
  = match open_after open tr1 with
    | Some open' => open_after open' tr2
    | None => None
    end.
Proof.
  revert open. induction tr1 as [|ev tr1 IH]; intros open; simpl; [reflexivity|].
  destruct (step_open open ev); [apply IH|reflexivity].
Qed.

Lemma neutral_app tr1 tr2 b : neutral tr1 false -> neutral tr2 b -> neutral (tr1 ++ tr2) b.
Proof. intros H1 H2 open. now rewrite open_after_app, H1. Qed.

Lemma neutral_nil b : @neutral D [] b.
Proof. intros open. reflexivity. Qed.

Ltac handles :=
  intros ?open;
  repeat (cbn [open_after step_open is_open existsb orb andb];
          rewrite ?String.eqb_refl, ?orb_true_r);
  reflexivity.

Ltac leaf := first [apply neutral_nil | handles].

Lemma GenerateTemplate_neutral (data : option D) (in_path out_path : string) :
  always h neutral (GenerateTemplate data in_path out_path).
Proof.
  intros w res w' tr. unfold GenerateTemplate.
  destruct data as [data|]; [|intros [= <- <- <-]; leaf].
  destruct (String.eqb in_path out_path); [intros [= <- <- <-]; leaf|].
  simpl. destruct (h (Create out_path) w) as [[err|] w1]; simpl;
    [intros [= <- <- <-]; leaf|].
  destruct (h (ReadFile in_path) w1) as [[[text|]|err] w2]; simpl.
  - destruct (h (Parse text) w2) as [[t|err] w3]; simpl.
    + destruct (h (Execute t (FileWriter out_path) data) w3) as [[err|] w4]; simpl;
        destruct (h (Flush out_path) w4) as [[] w5];
        destruct (h (Close out_path) w5) as [[] w6]; simpl;
        intros [= <- <- <-]; leaf.
    + destruct (h (Close out_path) w3) as [[] w4]. simpl. intros [= <- <- <-]. leaf.
  - destruct (h (Close out_path) w2) as [[] w3]. simpl. intros [= <- <- <-]. leaf.
  - destruct (h (Close out_path) w2) as [[] w3]. simpl. intros [= <- <- <-]. leaf.
Qed.

Lemma copy_file_neutral (from to : string) : always h neutral (@copy_file D from to).
Proof.
  intros w res w' tr. unfold copy_file. simpl.
  destruct (h (Open from) w) as [[err|] w1]; simpl; [intros [= <- <- <-]; leaf|].
  destruct (h (OpenFile to _ _) w1) as [[err|] w2]; simpl.
  - destruct (h (Close from) w2) as [[] w3]. simpl. intros [= <- <- <-]. leaf.
  - destruct (h (Copy to from) w2) as [err w3]; simpl.
    destruct (h (Close to) w3) as [[] w4]. destruct (h (Close from) w4) as [[] w5].
    destruct err; simpl; intros [= <- <- <-]; leaf.
Qed.

Ltac walk :=
  repeat first
    [ apply always_Ret; leaf
    | apply always_Panic; leaf
    | apply always_call; intros ?; leaf
    | apply GenerateTemplate_neutral
    | apply copy_file_neutral
    | apply always_bind; [exact neutral_app| |intros ?]
    | apply always_Do; [exact neutral_app|intros ?; leaf|intros ?]
    | match goal with
      | |- always _ _ (match ?x with _ => _ end) => destruct x
      | |- always _ _ (if ?x then _ else _) => destruct x
      end ].

Lemma GenerateWithCommand_neutral (path command : string) (args : list string)
    (data : option D) :
  always h neutral (GenerateWithCommand path command args data).
Proof. unfold GenerateWithCommand. walk. Qed.

Lemma make_directories_neutral (directories : list string) :
  always h neutral (@make_directories D directories).
Proof.
  induction directories as [|dir ds IH]; cbn [make_directories]; walk. exact IH.
Qed.

Lemma copy_files_to_neutral (paths : list string) (destination : string) :
  always h neutral (@copy_files_to D paths destination).
Proof.
  unfold copy_files_to, exists_file_or_directory. walk.
  induction paths as [|path paths IH]; cbn [copy_each];
    unfold exists_file_or_directory; walk.
  exact IH.
Qed.

End Handles.

(** ** Effects *)

Section Fulfils.
Context {D W : Type} (h : Handler D W).
Implicit Types (tr : list (Event D)) (L : list (Effect D)).

Lemma effects_app tr1 tr2 : effects (tr1 ++ tr2) = effects tr1 ++ effects tr2.
Proof. apply omap_app. Qed.

Lemma fulfils_Ret (err : option error) : fulfils h (Ret err) [].
Proof. intros w res w' tr [= <- <- <-]. split; [reflexivity|auto]. Qed.

Lemma fulfils_Panic : fulfils h Panic [].
Proof. intros w res w' tr [= <- <- <-]. split; [reflexivity|auto]. Qed.

Lemma fulfils_error (err : error) L : fulfils h (Ret (Some err)) L.
Proof.
  intros w res w' tr [= <- <- <-]. split; [apply prefix_nil|discriminate].
Qed.

Lemma fulfils_check (c k : Prog D (option error)) (wrap : error -> error) L1 L2 :
  fulfils h c L1 -> fulfils h k L2 ->
  fulfils h (check c orelse wrap ; k) (L1 ++ L2).
Proof.
  intros Hc Hk w res w' tr. rewrite run_bind.
  destruct (run h c w) as [[[[err|]|] w1] tr1] eqn:Hrun1;
    destruct (Hc _ _ _ _ Hrun1) as [Hpre Hall].
  - intros Hrun. cbn in Hrun. injection Hrun as <- <- <-. rewrite app_nil_r.
    split; [now apply prefix_app_r|discriminate].
  - destruct (run h k w1) as [[r w2] tr2] eqn:Hrun2.
    destruct (Hk _ _ _ _ Hrun2) as [Hpre2 Hall2].
    intros [= <- <- <-]. rewrite effects_app, (Hall eq_refl).
    split; [now apply prefix_app|]. intros Hnil. now rewrite (Hall2 Hnil).
  - intros [= <- <- <-]. split; [now apply prefix_app_r|discriminate].
Qed.

Lemma GenerateTemplate_fulfils (data : D) (in_path out_path : string) :
  fulfils h (GenerateTemplate (Some data) in_path out_path)
          [Created out_path; Rendered (FileWriter out_path) data].
Proof.
  intros w res w' tr. unfold GenerateTemplate.
  destruct (String.eqb in_path out_path).
  { intros [= <- <- <-]. split; [apply prefix_nil|discriminate]. }
  simpl. destruct (h (Create out_path) w) as [[err|] w1]; simpl.
  { intros [= <- <- <-]. split; [apply prefix_nil|discriminate]. }
  destruct (h (ReadFile in_path) w1) as [[[text|]|err] w2]; simpl.
  - destruct (h (Parse text) w2) as [[t|err] w3]; simpl.
    + destruct (h (Execute t (FileWriter out_path) data) w3) as [[err|] w4]; simpl;
        destruct (h (Flush out_path) w4) as [[] w5];
        destruct (h (Close out_path) w5) as [[] w6]; simpl;
        intros [= <- <- <-]; cbn.
      * split; [apply prefix_cons, prefix_nil|discriminate].
      * split; [reflexivity|auto].
    + destruct (h (Close out_path) w3) as [[] w4]. simpl. intros [= <- <- <-]. cbn.
      split; [apply prefix_cons, prefix_nil|discriminate].
  - destruct (h (Close out_path) w2) as [[] w3]. simpl. intros [= <- <- <-]. cbn.
    split; [apply prefix_cons, prefix_nil|discriminate].
  - destruct (h (Close out_path) w2) as [[] w3]. simpl. intros [= <- <- <-]. cbn.
    split; [apply prefix_cons, prefix_nil|discriminate].
Qed.

Lemma GenerateWithCommand_fulfils (path command : string) (args : list string)
    (data : D) :
  fulfils h (GenerateWithCommand path command args (Some data))
          [Started command args; Rendered PipeWriter data].
Proof.
  intros w res w' tr. unfold GenerateWithCommand. simpl.
  destruct (h (LookPath command) w) as [[resolved|err] w1]; simpl;
    [|intros [= <- <- <-]; split; [apply prefix_nil|discriminate]].
  destruct (h (ReadFile path) w1) as [[[text|]|err] w2]; simpl;
    [|intros [= <- <- <-]; split; [apply prefix_nil|discriminate]..].
  destruct (h (Parse text) w2) as [[t|err] w3]; simpl;
    [|intros [= <- <- <-]; split; [apply prefix_nil|discriminate]].
  destruct (h (Go_Run command args) w3) as [status w4]; simpl.
  destruct (h (Execute t PipeWriter data) w4) as [[err|] w5]; simpl;
    destruct (h Pipe_Close w5) as [[] w6]; simpl; intros [= <- <- <-]; cbn.
  - split; [apply prefix_cons, prefix_nil|discriminate].
  - split; [reflexivity|auto].
Qed.

Lemma make_directories_fulfils (directories : list string) :
  fulfils h (make_directories directories) (Made <$> directories).
Proof.
  induction directories as [|dir ds IH]; cbn [make_directories].
  - apply fulfils_Ret.
  - assert (Hmk : fulfils h (call (Mkdir dir 511)) [Made dir]).
    { intros w res w' tr. unfold call. simpl.
      destruct (h (Mkdir dir 511) w) as [[err|] w1]; intros [= <- <- <-]; cbn.
      - split; [apply prefix_nil|discriminate].
      - split; [reflexivity|auto]. }
    exact (fulfils_check _ _ _ [Made dir] (Made <$> ds) Hmk IH).
Qed.

Lemma copy_file_fulfils (from to : string) :
  fulfils h (copy_file from to) [Copied to from].
Proof.
  intros w res w' tr. unfold copy_file. simpl.
  destruct (h (Open from) w) as [[err|] w1]; simpl;
    [intros [= <- <- <-]; split; [apply prefix_nil|discriminate]|].
  destruct (h (OpenFile to _ _) w1) as [[err|] w2]; simpl.
  - destruct (h (Close from) w2) as [[] w3]. simpl. intros [= <- <- <-].
    split; [apply prefix_nil|discriminate].
  - destruct (h (Copy to from) w2) as [[err|] w3]; simpl;
      destruct (h (Close to) w3) as [[] w4]; destruct (h (Close from) w4) as [[] w5];
      simpl; intros [= <- <- <-]; cbn.
    + split; [apply prefix_nil|discriminate].
    + split; [reflexivity|auto].
Qed.

Lemma fulfils_found (path : string) (k : Prog D (option error)) L :
  fulfils h k L ->
  fulfils h (found <- exists_file_or_directory path ;
           if negb found then Ret (Some ("Unable to locate: " +:+ path)) else k) L.
Proof.
  intros Hk w res w' tr. unfold exists_file_or_directory. simpl.
  destruct (h (Stat path) w) as [err w1]. simpl.
  destruct (negb (IsNotExist err)); simpl.
  - destruct (run h k w1) as [[r w2] tr1] eqn:Hrun. intros [= <- <- <-].
    exact (Hk _ _ _ _ Hrun).
  - intros [= <- <- <-]. split; [apply prefix_nil|discriminate].
Qed.

Lemma copy_files_to_fulfils (paths : list string) (destination : string) :
  fulfils h (copy_files_to paths destination) (copy_effects paths destination).
Proof.
  unfold copy_files_to. apply fulfils_found.
  induction paths as [|path paths IH]; cbn [copy_each].
  - apply fulfils_Ret.
  - apply fulfils_found. unfold copy_effects. rewrite fmap_cons.
    unfold basename at 1.
    destruct (filename_from_path_basename path) as (f & -> & _). cbn [fst].
    exact (fulfils_check _ _ _ [Copied (destination +:+ "/" +:+ f) path] _
             (copy_file_fulfils _ _) IH).
Qed.

End Fulfils.

(** ** Paths *)

Lemma contains_app (c : ascii) (a b : string) :
  contains c (a +:+ b) = contains c a || contains c b.
Proof.
  induction a as [|x a IH]; [reflexivity|].
  rewrite app_String. simpl. now destruct (ascii_dec c x).
Qed.

Lemma contains_separator (c : ascii) (a b : string) :
  contains c (a +:+ String c b) = true.
Proof.
  rewrite contains_app. simpl. destruct (ascii_dec c c); [|contradiction].
  apply orb_true_r.
Qed.

Lemma last_separator_unique (c : ascii) (pre1 pre2 f1 f2 : string) :
  contains c f1 = false -> contains c f2 = false ->
  pre1 +:+ String c f1 = pre2 +:+ String c f2 -> f1 = f2.
Proof.
  intros Hf1 Hf2. revert pre2.
  induction pre1 as [|x pre1 IH]; intros [|y pre2]; rewrite ?app_String; simpl.
  - now intros [= ->].
  - intros [= <- ->]. now rewrite contains_separator in Hf1.
  - intros [= -> <-]. now rewrite contains_separator in Hf2.
  - intros [= _ Heq]. now apply (IH pre2).
Qed.

Lemma after_last_separator_unique (path f1 f2 : string) :
  after_last_separator path f1 -> after_last_separator path f2 -> f1 = f2.
Proof.
  intros [Hf1 [->|[pre1 H1]]] [Hf2 [Heq|[pre2 H2]]].
  - now symmetry.
  - subst f1. change ("/" +:+ f2) with (String slash f2) in Hf1.
    now rewrite contains_separator in Hf1.
  - rewrite <- Heq, H1 in Hf2. change ("/" +:+ f1) with (String slash f1) in Hf2.
    now rewrite contains_separator in Hf2.
  - subst path. now apply (last_separator_unique slash pre1 pre2).
Qed.

Lemma basename_after_last_separator (path : string) :
  after_last_separator path (basename path).
Proof.
  unfold basename. now destruct (filename_from_path_basename path) as (f & -> & Hf).
Qed.

Lemma filename_from_path_eq (path : string) :
  filename_from_path path = (basename path, None).
Proof.
  unfold basename. now destruct (filename_from_path_basename path) as (f & -> & _).
Qed.

(** ** The trailing separator of the root path *)

Lemma HasSuffix_slash (path : string) : HasSuffix (path +:+ "/") "/" = true.
Proof.
  unfold HasSuffix. rewrite string_length_app. simpl String.length.
  replace (String.length path + 1 - 1)%nat with (String.length path + 0)%nat by lia.
  rewrite substring_app_tail. simpl.
  destruct (String.length path + 1)%nat eqn:Hlen; [lia|reflexivity].
Qed.

Lemma stripped_slash (path : string) : path <> "" -> stripped (path +:+ "/") = path.
Proof.
  intros Hne. unfold stripped. rewrite HasSuffix_slash, string_length_app.
  simpl String.length.
  destruct path as [|c path]; [contradiction|]. simpl String.length.
  replace (1 <? S (String.length path) + 1)%nat with true
    by (symmetry; apply Nat.ltb_lt; lia).
  simpl andb. cbv iota.
  replace (S (String.length path) + 1 - 1)%nat with (String.length (String c path))
    by (simpl; lia).
  apply substring_app_head.
Qed.

Lemma stripped_without_slash (path : string) :
  HasSuffix path "/" = false -> stripped path = path.
Proof. intros Hsuf. unfold stripped. rewrite Hsuf. now rewrite andb_false_r. Qed.

Lemma filenames_from_paths_map (paths : list string) :
  filenames_from_paths paths = (basename <$> paths, None).
Proof. unfold filenames_from_paths. now rewrite range_paths_app. Qed.

Section GenerationEffects.
Context {E G W : Type} `{GraphOps G} (h : Handler (Data E) W).

Lemma range_executors_effects (meta : Metadata.t) (path src_dir : string)
    (execs : list E) :
  forall i executors w res w' tr,
    run h (range_executors meta path src_dir i execs executors) w = (res, w', tr) ->
    effects tr `prefix_of` executor_effects meta src_dir i execs
    /\ (forall executors',
           res = Returned (None, executors') ->
           effects tr = executor_effects meta src_dir i execs
           /\ executors' = executors ++ (ros_executor meta <$> execs)).
Proof.
  induction execs as [|exec execs IH]; intros i executors w res w' tr.
  - simpl. intros [= <- <- <-]. split; [reflexivity|].
    intros executors' [= <-]. now rewrite app_nil_r.
  - cbn [range_executors]. rewrite run_bind.
    destruct (run h (GenerateTemplate _ _ _) w) as [[r1 w1] tr1] eqn:Hrender.
    apply GenerateTemplate_fulfils in Hrender as [Hpre Hall].
    assert (Hcons : executor_effects meta src_dir i (exec :: execs)
                    = [ Created (executor_source src_dir i);
                        Rendered (FileWriter (executor_source src_dir i))
                                 (ExecutorData (ros_executor meta exec)) ]
                      ++ executor_effects meta src_dir (i + 1) execs)
      by reflexivity.
    rewrite Hcons. clear Hcons.
    destruct r1 as [[err|]|].
    + intros Hrun. cbn in Hrun. injection Hrun as <- <- <-. rewrite app_nil_r.
      split; [now apply prefix_app_r|discriminate].
    + cbv beta iota.
      destruct (run h _ w1) as [[r2 w2] tr2] eqn:Hrest.
      apply IH in Hrest as [Hpre2 Hall2].
      intros [= <- <- <-]. rewrite effects_app, (Hall eq_refl).
      split; [now apply prefix_app|].
      intros executors' Hres. destruct (Hall2 _ Hres) as [-> ->].
      split; [reflexivity|]. now rewrite <- app_assoc.
    + intros [= <- <- <-]. split; [now apply prefix_app_r|discriminate].
Qed.

Lemma GenerateApplication_fulfils (a : app.Application E) (path : string)
    (meta : Metadata.t) (gd : Graphdata.t G) :
  fulfils h (GenerateApplication (Some a) path meta gd)
          (generation_effects a path meta gd).
Proof.
  unfold GenerateApplication, generation_effects. cbv zeta. fold (stripped path).
  apply fulfils_check; [apply make_directories_fulfils|].
  intros w res w' tr. rewrite run_bind.
  destruct (run h (range_executors _ _ _ _ _ _) w) as [[r1 w1] tr1] eqn:Hloop.
  apply range_executors_effects in Hloop as [Hpre Hall].
  destruct r1 as [[[err|] executors]|].
  - intros Hrun. cbn in Hrun. injection Hrun as <- <- <-. rewrite app_nil_r.
    split; [now apply prefix_app_r|discriminate].
  - destruct (Hall _ eq_refl) as [Heff ->]. cbv beta iota.
    rewrite !filenames_from_paths_map. cbv beta iota. rewrite app_nil_l.
    fold (build_of a meta).
    match goal with
    | |- context [run h ?k w1] =>
        match goal with
        | |- _ -> _ `prefix_of` _ ++ ?rest /\ _ => assert (Hrest : fulfils h k rest)
        end
    end.
    { refine (fulfils_check _ _ _ _ [_; _] _ (GenerateTemplate_fulfils _ _ _ _) _).
      refine (fulfils_check _ _ _ _ [_; _] _ (GenerateTemplate_fulfils _ _ _ _) _).
      apply fulfils_check; [apply copy_files_to_fulfils|].
      apply fulfils_check; [apply copy_files_to_fulfils|].
      apply fulfils_check; [apply copy_files_to_fulfils|].
      refine (fulfils_check _ _ _ _ [_; _] _ (GenerateTemplate_fulfils _ _ _ _) _).
      destruct (graph_to_graphviz gd) as [diagram|]; [|apply fulfils_Panic].
      refine (fulfils_check _ _ _ _ [_; _] _ (GenerateWithCommand_fulfils _ _ _ _ _) _).
      refine (fulfils_check _ _ _ _ [_; _] [] (GenerateWithCommand_fulfils _ _ _ _ _) _).
      apply fulfils_Ret. }
    destruct (run h _ w1) as [[r2 w2] tr2] eqn:Hrun2.
    apply Hrest in Hrun2 as [Hpre2 Hall2].
    intros [= <- <- <-]. rewrite effects_app, Heff.
    split; [now apply prefix_app|]. intros Hnil. now rewrite (Hall2 Hnil).
  - intros [= <- <- <-]. split; [now apply prefix_app_r|discriminate].
Qed.

End GenerationEffects.

Section HandlesOfGeneration.
Context {E G W : Type} `{GraphOps G} (h : Handler (Data E) W).

Ltac stage :=
  repeat first
    [ apply always_Ret; apply neutral_nil
    | apply always_Panic; apply neutral_nil
    | apply GenerateTemplate_neutral
    | apply GenerateWithCommand_neutral
    | apply copy_files_to_neutral
    | apply make_directories_neutral
    | apply always_bind; [exact neutral_app| |intros ?]
    | match goal with
      | |- always _ _ (match ?x with _ => _ end) => destruct x
      end ].

Lemma range_executors_neutral (meta : Metadata.t) (path src_dir : string)
    (execs : list E) :
  forall i executors,
    always h neutral (range_executors meta path src_dir i execs executors).
Proof.
  induction execs as [|exec execs IH]; intros i executors; cbn [range_executors];
    stage. apply IH.
Qed.

Lemma GenerateApplication_neutral (a : option (app.Application E)) (path : string)
    (meta : Metadata.t) (gd : Graphdata.t G) :
  always h neutral (GenerateApplication a path meta gd).
Proof.
  unfold GenerateApplication. destruct a as [a|]; [|stage]. cbv zeta.
  apply always_bind; [exact neutral_app|apply make_directories_neutral|].
  intros [err|]; [stage|].
  apply always_bind; [exact neutral_app|apply range_executors_neutral|].
  intros [[err|] executors]; [stage|].
  rewrite !filenames_from_paths_map. cbv beta iota. stage.
Qed.

End HandlesOfGeneration.

(** ** Panics *)

Section Panics.
Context {D W : Type} (h : Handler D W).
Implicit Types (tr : list (Event D)).

Lemma GenerateTemplate_panicked (data : option D) (in_path out_path : string)
    w res w' tr :
  run h (GenerateTemplate data in_path out_path) w = (res, w', tr) ->
  panicked res = nil_buffer_read tr.
Proof.
  unfold GenerateTemplate.
  destruct data as [data|]; [|now intros [= <- <- <-]].
  destruct (String.eqb in_path out_path); [now intros [= <- <- <-]|].
  simpl. destruct (h (Create out_path) w) as [[err|] w1]; simpl;
    [now intros [= <- <- <-]|].
  destruct (h (ReadFile in_path) w1) as [[[text|]|err] w2]; simpl.
  - destruct (h (Parse text) w2) as [[t|err] w3]; simpl.
    + destruct (h (Execute t (FileWriter out_path) data) w3) as [[err|] w4]; simpl;
        destruct (h (Flush out_path) w4) as [[] w5];
        destruct (h (Close out_path) w5) as [[] w6]; simpl;
        now intros [= <- <- <-].
    + destruct (h (Close out_path) w3) as [[] w4]. simpl. now intros [= <- <- <-].
  - destruct (h (Close out_path) w2) as [[] w3]. simpl. now intros [= <- <- <-].
  - destruct (h (Close out_path) w2) as [[] w3]. simpl. now intros [= <- <- <-].
Qed.

Lemma GenerateWithCommand_panicked (path command : string) (args : list string)
    (data : option D) w res w' tr :
  run h (GenerateWithCommand path command args data) w = (res, w', tr) ->
  panicked res = nil_buffer_read tr.
Proof.
  unfold GenerateWithCommand. simpl.
  destruct (h (LookPath command) w) as [[resolved|err] w1]; simpl;
    [|now intros [= <- <- <-]].
  destruct data as [data|]; simpl; [|now intros [= <- <- <-]].
  destruct (h (ReadFile path) w1) as [[[text|]|err] w2]; simpl;
    [|now intros [= <- <- <-]..].
  destruct (h (Parse text) w2) as [[t|err] w3]; simpl; [|now intros [= <- <- <-]].
  destruct (h (Go_Run command args) w3) as [status w4]; simpl.
  destruct (h (Execute t PipeWriter data) w4) as [[err|] w5]; simpl;
    destruct (h Pipe_Close w5) as [[] w6]; simpl; now intros [= <- <- <-].
Qed.

Lemma panics_only_if_app X tr1 tr2 b :
  panics_only_if X tr1 false -> panics_only_if X tr2 b ->
  panics_only_if X (tr1 ++ tr2) b.
Proof.
  intros _ H2 Hb. destruct (H2 Hb) as [Hnil|HX]; [left|now right].
  unfold nil_buffer_read in *. rewrite existsb_app, Hnil. apply orb_true_r.
Qed.

Lemma returns_only_if X tr : panics_only_if X tr false.
Proof. intros Hb. discriminate. Qed.

Lemma GenerateTemplate_may_panic X (data : option D) (in_path out_path : string) :
  always h (panics_only_if X) (GenerateTemplate data in_path out_path).
Proof.
  intros w res w' tr Hrun Hb. left.
  now rewrite <- (GenerateTemplate_panicked _ _ _ _ _ _ _ Hrun).
Qed.

Lemma GenerateWithCommand_may_panic X (path command : string)
    (args : list string) (data : option D) :
  always h (panics_only_if X) (GenerateWithCommand path command args data).
Proof.
  intros w res w' tr Hrun Hb. left.
  now rewrite <- (GenerateWithCommand_panicked _ _ _ _ _ _ _ _ Hrun).
Qed.

Ltac calm :=
  repeat first
    [ apply always_Ret; apply returns_only_if
    | apply always_Do;
        [apply panics_only_if_app|intros ?; apply returns_only_if|intros ?]
    | apply always_call; intros ?; apply returns_only_if
    | apply always_bind; [apply panics_only_if_app| |intros ?]
    | match goal with
      | |- always _ _ (match ?x with _ => _ end) => destruct x
      | |- always _ _ (if ?x then _ else _) => destruct x
      end ].

Lemma make_directories_may_panic X (directories : list string) :
  always h (panics_only_if X) (@make_directories D directories).
Proof.
  induction directories as [|dir ds IH]; cbn [make_directories]; calm. exact IH.
Qed.

Lemma copy_files_to_may_panic X (paths : list string) (destination : string) :
  always h (panics_only_if X) (@copy_files_to D paths destination).
Proof.
  unfold copy_files_to, exists_file_or_directory. calm.
  induction paths as [|path paths IH]; cbn [copy_each];
    unfold exists_file_or_directory, copy_file; calm.
  exact IH.
Qed.

End Panics.

Section PanicsOfGeneration.
Context {E G W : Type} `{GraphOps G} (h : Handler (Data E) W).

Ltac stage :=
  repeat first
    [ apply always_Ret; apply returns_only_if
    | apply always_Panic; intros _; right; reflexivity
    | apply GenerateTemplate_may_panic
    | apply GenerateWithCommand_may_panic
    | apply copy_files_to_may_panic
    | apply make_directories_may_panic
    | apply always_bind; [apply panics_only_if_app| |intros ?]
    | match goal with
      | |- always _ _ (match ?x with _ => _ end) => destruct x
      end ].

Lemma range_executors_may_panic X (meta : Metadata.t) (path src_dir : string)
    (execs : list E) :
  forall i executors,
    always h (panics_only_if X) (range_executors meta path src_dir i execs executors).
Proof.
  induction execs as [|exec execs IH]; intros i executors; cbn [range_executors];
    stage. apply IH.
Qed.

Lemma GenerateApplication_may_panic (a : option (app.Application E))
    (path : string) (meta : Metadata.t) (gd : Graphdata.t G) :
  always h (panics_only_if (graph_to_graphviz gd = None))
         (GenerateApplication a path meta gd).
Proof.
  unfold GenerateApplication. destruct a as [a|]; [|stage]. cbv zeta.
  apply always_bind; [apply panics_only_if_app|apply make_directories_may_panic|].
  intros [err|]; [stage|].
  apply always_bind; [apply panics_only_if_app|apply range_executors_may_panic|].
  intros [[err|] executors]; [stage|].
  rewrite !filenames_from_paths_map. cbv beta iota. stage.
Qed.

(** *** What a panicking run has achieved *)

Lemma panics_after_Ret X (err : option error) (L : list (Effect (Data E))) :
  panics_after h X (Ret err) L.
Proof. intros w w' tr Hrun. discriminate Hrun. Qed.

Lemma panics_after_Panic (X : Prop) : X -> panics_after h X Panic [].
Proof. intros HX w w' tr [= <- <-]. right. split; [exact HX|reflexivity]. Qed.

Lemma panics_after_check X (c k : Prog (Data E) (option error))
    (wrap : error -> error) (L1 L2 : list (Effect (Data E))) :
  fulfils h c L1 -> always h (panics_only_if False) c ->
  panics_after h X k L2 ->
  panics_after h X (check c orelse wrap ; k) (L1 ++ L2).
Proof.
  intros Hc Hcalm Hk w w' tr. rewrite run_bind.
  destruct (run h c w) as [[[[err|]|] w1] tr1] eqn:Hrun1.
  - intros Hrun. cbn in Hrun. discriminate Hrun.
  - destruct (Hc _ _ _ _ Hrun1) as [_ Hall].
    destruct (run h k w1) as [[r w2] tr2] eqn:Hrun2.
    intros [= -> <- <-].
    destruct (Hk _ _ _ Hrun2) as [Hnil|[HX Heff]].
    + left. unfold nil_buffer_read in *. rewrite existsb_app, Hnil.
      apply orb_true_r.
    + right. split; [exact HX|]. now rewrite effects_app, (Hall eq_refl), Heff.
  - intros [= <- <-]. left.
    destruct (Hcalm _ _ _ _ Hrun1 eq_refl) as [Hnil|[]]. exact Hnil.
Qed.

Lemma GenerateApplication_panics_after (a : app.Application E) (path : string)
    (meta : Metadata.t) (gd : Graphdata.t G) :
  panics_after h (graph_to_graphviz gd = None)
               (GenerateApplication (Some a) path meta gd)
               (project_effects a path meta).
Proof.
  unfold GenerateApplication, project_effects. cbv zeta. fold (stripped path).
  apply panics_after_check;
    [apply make_directories_fulfils|apply make_directories_may_panic|].
  intros w w' tr. rewrite run_bind.
  destruct (run h (range_executors _ _ _ _ _ _) w) as [[r1 w1] tr1] eqn:Hloop.
  pose proof (range_executors_may_panic False _ _ _ _ _ _ _ _ _ _ Hloop) as Hcalm.
  apply range_executors_effects in Hloop as [_ Hall].
  destruct r1 as [[[err|] executors]|].
  - intros Hrun. cbn in Hrun. discriminate Hrun.
  - destruct (Hall _ eq_refl) as [Heff ->]. cbv beta iota.
    rewrite !filenames_from_paths_map. cbv beta iota. rewrite app_nil_l.
    fold (build_of a meta).
    match goal with
    | |- context [run h ?k w1] =>
        match goal with
        | |- _ -> _ \/ (_ /\ _ = _ ++ ?rest) =>
            assert (Hrest : panics_after h (graph_to_graphviz gd = None) k rest)
        end
    end.
    { refine (panics_after_check _ _ _ _ [_; _] _
                (GenerateTemplate_fulfils _ _ _ _)
                (GenerateTemplate_may_panic _ _ _ _ _) _).
      refine (panics_after_check _ _ _ _ [_; _] _
                (GenerateTemplate_fulfils _ _ _ _)
                (GenerateTemplate_may_panic _ _ _ _ _) _).
      apply panics_after_check;
        [apply copy_files_to_fulfils|apply copy_files_to_may_panic|].
      apply panics_after_check;
        [apply copy_files_to_fulfils|apply copy_files_to_may_panic|].
      apply panics_after_check;
        [apply copy_files_to_fulfils|apply copy_files_to_may_panic|].
      rewrite <- (app_nil_r [_; _]).
      refine (panics_after_check _ _ _ _ [_; _] [] 
                (GenerateTemplate_fulfils _ _ _ _)
                (GenerateTemplate_may_panic _ _ _ _ _) _).
      destruct (graph_to_graphviz gd) as [diagram|] eqn:Hgraph;
        [|now apply panics_after_Panic].
      intros w2 w3 tr2 Hrun2. left.
      revert Hrun2. rewrite run_bind.
      destruct (run h (GenerateWithCommand _ _ _ _) w2) as [[r3 w4] tr3] eqn:Hrun3.
      pose proof (GenerateWithCommand_may_panic h False _ _ _ _ _ _ _ _ Hrun3) as Hp3.
      destruct r3 as [[err|]|].
      - intros Hrun. cbn in Hrun. discriminate Hrun.
      - rewrite run_bind.
        destruct (run h (GenerateWithCommand _ _ _ _) w4) as [[r5 w5] tr5] eqn:Hrun5.
        pose proof (GenerateWithCommand_may_panic h False _ _ _ _ _ _ _ _ Hrun5)
          as Hp5.
        destruct r5 as [[err|]|]; intros Hrun; cbn in Hrun; try discriminate Hrun.
        injection Hrun as <- <-.
        destruct (Hp5 eq_refl) as [Hnil|[]].
        unfold nil_buffer_read in *. rewrite existsb_app, Hnil. apply orb_true_r.
      - intros [= <- <-]. destruct (Hp3 eq_refl) as [Hnil|[]]. exact Hnil. }
    destruct (run h _ w1) as [[r2 w2] tr2] eqn:Hrun2.
    intros [= -> <- <-].
    destruct (Hrest _ _ _ Hrun2) as [Hnil|[HX Heff2]].
    + left. unfold nil_buffer_read in *. rewrite existsb_app, Hnil.
      apply orb_true_r.
    + right. split; [exact HX|]. now rewrite effects_app, Heff, Heff2.
  - intros [= <- <-]. left. destruct (Hcalm eq_refl) as [Hnil|[]]. exact Hnil.
Qed.

End PanicsOfGeneration.

(** ** The renderers *)

Section RendererProperties.
Context {D W : Type} (h : Handler D W).

(** X5.  A run of [GenerateTemplate] that returns nil had data and two
    different paths, and made exactly six calls: it created the output
    file, read the template, parsed what it read, executed the parsed
    template into the output file with the data, flushed the writer and
    closed the file. *)
Theorem GenerateTemplate_nil_return (data : option D) (in_path out_path : string)
    (w w' : W) (tr : list (Event D)) :
  run h (GenerateTemplate data in_path out_path) w = (Returned None, w', tr) ->
  exists d text t,
    data = Some d /\ in_path <> out_path
    /\ tr = [ Ev (Create out_path) None;
              Ev (ReadFile in_path) (Ok (Some text));
              Ev (Parse text) (Ok t);
              Ev (Execute t (FileWriter out_path) d) None;
              Ev (Flush out_path) tt;
              Ev (Close out_path) tt ].
Proof.
  unfold GenerateTemplate. destruct data as [d|]; [|discriminate].
  destruct (String.eqb_spec in_path out_path) as [Heq|Hne]; [discriminate|].
  simpl. destruct (h (Create out_path) w) as [[err|] w1]; simpl; [discriminate|].
  destruct (h (ReadFile in_path) w1) as [[[text|]|err] w2]; simpl.
  - destruct (h (Parse text) w2) as [[t|err] w3]; simpl.
    + destruct (h (Execute t (FileWriter out_path) d) w3) as [[err|] w4]; simpl;
        destruct (h (Flush out_path) w4) as [[] w5];
        destruct (h (Close out_path) w5) as [[] w6]; simpl; [discriminate|].
      intros [= <- <-]. exists d, text, t. auto.
    + destruct (h (Close out_path) w3) as [[] w4]. discriminate.
  - destruct (h (Close out_path) w2) as [[] w3]. discriminate.
  - destruct (h (Close out_path) w2) as [[] w3]. discriminate.
Qed.

(** X6.  In every run of [GenerateTemplate], also one that fails or
    panics, the output file is closed if it was created and is not
    touched otherwise: the template is executed and the writer flushed
    only while the file is open, and no file is open at the end. *)
Theorem GenerateTemplate_closes_its_file (data : option D) (in_path out_path : string)
    (w : W) (res : Outcome (option error)) (w' : W) (tr : list (Event D)) :
  run h (GenerateTemplate data in_path out_path) w = (res, w', tr) ->
  open_after [] tr = Some [].
Proof. intros Hrun. exact (GenerateTemplate_neutral h _ _ _ _ _ _ _ Hrun []). Qed.

(** X7.  [GenerateTemplate] panics exactly in the runs in which
    [ioutil.ReadFile] gives a nil buffer and a nil error. *)
Theorem GenerateTemplate_panics_iff (data : option D) (in_path out_path : string)
    (w : W) (res : Outcome (option error)) (w' : W) (tr : list (Event D)) :
  run h (GenerateTemplate data in_path out_path) w = (res, w', tr) ->
  (res = Panicked <-> nil_buffer_read tr = true).
Proof.
  intros Hrun. rewrite <- (GenerateTemplate_panicked h _ _ _ _ _ _ _ Hrun).
  destruct res; simpl; split; congruence.
Qed.

(** X8.  [GenerateWithCommand] panics exactly in the runs in which
    [ioutil.ReadFile] gives a nil buffer and a nil error: its test
    [nil != err || template_buffer == nil] then calls [err.Error()] on a nil
    error. *)
Theorem GenerateWithCommand_panics_iff (path command : string) (args : list string)
    (data : option D) (w : W) (res : Outcome (option error)) (w' : W)
    (tr : list (Event D)) :
  run h (GenerateWithCommand path command args data) w = (res, w', tr) ->
  (res = Panicked <-> nil_buffer_read tr = true).
Proof.
  intros Hrun. rewrite <- (GenerateWithCommand_panicked h _ _ _ _ _ _ _ _ Hrun).
  destruct res; simpl; split; congruence.
Qed.

(** X9.  A run of [GenerateWithCommand] either has no effect at all, the
    command is not started and nothing is rendered, or it is the run of six
    calls in which the command resolved, the template was read and parsed,
    the command was started once, the template was executed into the pipe,
    and the write end of the pipe was closed, whether the execution
    succeeded or not. *)
Theorem GenerateWithCommand_starts_after_parse (path command : string)
    (args : list string) (data : option D) (w : W) (res : Outcome (option error))
    (w' : W) (tr : list (Event D)) :
  run h (GenerateWithCommand path command args data) w = (res, w', tr) ->
  effects tr = []
  \/ exists d resolved text t status err,
       data = Some d
       /\ tr = [ Ev (LookPath command) (Ok resolved);
                 Ev (ReadFile path) (Ok (Some text));
                 Ev (Parse text) (Ok t);
                 Ev (Go_Run command args) status;
                 Ev (Execute t PipeWriter d) err;
                 Ev Pipe_Close tt ].
Proof.
  unfold GenerateWithCommand. simpl.
  destruct (h (LookPath command) w) as [[resolved|err] w1]; simpl;
    [|intros [= <- <- <-]; now left].
  destruct data as [d|]; simpl; [|intros [= <- <- <-]; now left].
  destruct (h (ReadFile path) w1) as [[[text|]|err] w2]; simpl;
    [|intros [= <- <- <-]; now left..].
  destruct (h (Parse text) w2) as [[t|err] w3]; simpl;
    [|intros [= <- <- <-]; now left].
  destruct (h (Go_Run command args) w3) as [status w4]; simpl.
  destruct (h (Execute t PipeWriter d) w4) as [err w5]; simpl.
  destruct (h Pipe_Close w5) as [[] w6]; simpl.
  intros Hrun. right. exists d, resolved, text, t, status, err.
  split; [reflexivity|]. destruct err; simpl in Hrun; now injection Hrun as _ _ <-.
Qed.

(** ** Staging files *)

(** X10.  The copies that a run of [copy_files_to] completes are an
    initial part of the list that pairs each path, in order, with
    [destination/<filename of the path>]; a run that returns nil has
    completed them all.  A failure stops the run and leaves the earlier
    copies in place. *)
Theorem copy_files_to_copies (paths : list string) (destination : string)
    (w : W) (res : Outcome (option error)) (w' : W) (tr : list (Event D)) :
  run h (copy_files_to paths destination) w = (res, w', tr) ->
  let copies :=
    (fun path => Copied (destination +:+ "/" +:+ fst (filename_from_path path)) path)
      <$> paths in
  effects tr `prefix_of` copies /\ (res = Returned None -> effects tr = copies).
Proof. intros Hrun. exact (copy_files_to_fulfils h _ _ _ _ _ _ Hrun). Qed.

(** X11.  In every run of [copy_files_to], every file that is opened is
    closed again, the destination before the source; data is copied only
    between open files; no file is open at the end. *)
Theorem copy_files_to_closes_its_files (paths : list string) (destination : string)
    (w : W) (res : Outcome (option error)) (w' : W) (tr : list (Event D)) :
  run h (copy_files_to paths destination) w = (res, w', tr) ->
  open_after [] tr = Some [].
Proof. intros Hrun. exact (copy_files_to_neutral h _ _ _ _ _ _ Hrun []). Qed.

End RendererProperties.

(** ** The orchestrator *)

Lemma prefix_app_cases {A : Type} (l l1 l2 : list A) :
  l `prefix_of` l1 ++ l2 -> l `prefix_of` l1 \/ l1 `prefix_of` l.
Proof.
  revert l. induction l1 as [|x l1 IH]; intros l Hpre; simpl in *.
  - right. apply prefix_nil.
  - destruct l as [|y l]; [left; apply prefix_nil|].
    pose proof (prefix_cons_inv_1 _ _ _ _ Hpre) as ->.
    apply prefix_cons_inv_2 in Hpre.
    destruct (IH _ Hpre); [left|right]; now apply prefix_cons.
Qed.

Lemma builds_app {E : Type} (L1 L2 : list (Effect (Data E))) :
  builds (L1 ++ L2) = builds L1 ++ builds L2.
Proof. apply omap_app. Qed.

Lemma builds_copy_effects {E : Type} (paths : list string) (destination : string) :
  builds (@copy_effects (Data E) paths destination) = [].
Proof. induction paths as [|path paths IH]; [reflexivity|exact IH]. Qed.

Lemma builds_executor_effects {E : Type} (meta : Metadata.t) (src_dir : string)
    (execs : list E) (i : Z) :
  builds (executor_effects meta src_dir i execs) = [].
Proof.
  revert i. induction execs as [|exec execs IH]; intros i; [reflexivity|].
  exact (IH (i + 1)).
Qed.

Section OrchestratorProperties.
Context {E G W : Type} `{GraphOps G} (h : Handler (Data E) W).

(** X12.  The effects of every run of [GenerateApplication] are an initial
    part of one fixed sequence, and the whole of it when the run returns
    nil: the seven directories; for each executor in order its source file
    created and rendered; the manifest and the descriptor; the libraries,
    headers and sources copied into [lib], [include/<name>] and [src]; the
    launch script; [dot] started on the graph diagram and on the
    application diagram.  Nothing is undone after a failure. *)
Theorem GenerateApplication_effects (a : app.Application E) (path : string)
    (meta : Metadata.t) (gd : Graphdata.t G)
    (w : W) (res : Outcome (option error)) (w' : W) (tr : list (Event (Data E))) :
  run h (GenerateApplication (Some a) path meta gd) w = (res, w', tr) ->
  effects tr `prefix_of` generation_effects a path meta gd
  /\ (res = Returned None -> effects tr = generation_effects a path meta gd).
Proof. intros Hrun. exact (GenerateApplication_fulfils h _ _ _ _ _ _ _ _ Hrun). Qed.

(** X13.  Directories come first: a run of [GenerateApplication] that
    creates a file, renders a template, copies a file or starts a command
    has made all seven directories of the project before, in the order
    root, [src], [include], [include/<name>], [lib], [launch], [assets]. *)
Theorem GenerateApplication_directories_first (a : app.Application E) (path : string)
    (meta : Metadata.t) (gd : Graphdata.t G)
    (w : W) (res : Outcome (option error)) (w' : W) (tr : list (Event (Data E)))
    (e : Effect (Data E)) :
  run h (GenerateApplication (Some a) path meta gd) w = (res, w', tr) ->
  In e (effects tr) -> is_made e = false ->
  (Made <$> project_directories a path) `prefix_of` effects tr.
Proof.
  intros Hrun Hin He.
  apply GenerateApplication_fulfils in Hrun as [Hpre _].
  unfold generation_effects in Hpre. cbv zeta in Hpre.
  apply prefix_app_cases in Hpre as [Hpre|Hpre]; [|exact Hpre].
  exfalso. destruct Hpre as [k Hk].
  assert (Hmade : In e (Made <$> project_directories a path)).
  { unfold project_directories. cbv zeta. rewrite Hk. apply in_or_app. now left. }
  apply list_elem_of_In, list_elem_of_fmap in Hmade as (dir & -> & _). discriminate.
Qed.

(** X14.  In a run of [GenerateApplication] that returns nil, the manifest,
    the descriptor and the launch script are rendered from one and the same
    build record: the name of the application, the packages of the
    metadata, the filenames of its sources and libraries, and the records
    of the executors in declared order. *)
Theorem GenerateApplication_one_build_record (a : app.Application E) (path : string)
    (meta : Metadata.t) (gd : Graphdata.t G)
    (w w' : W) (tr : list (Event (Data E))) :
  run h (GenerateApplication (Some a) path meta gd) w = (Returned None, w', tr) ->
  let build :=
    {| Build.Name := app.Name a;
       Build.Packages := Metadata.Packages meta;
       Build.Sources :=
         (fun path => fst (filename_from_path path)) <$> Metadata.Sources meta;
       Build.Libraries :=
         (fun path => fst (filename_from_path path)) <$> Metadata.Libraries meta;
       Build.Executors := ros_executor meta <$> app.Executors a |} in
  builds (effects tr) = [build; build; build].
Proof.
  intros Hrun build.
  apply GenerateApplication_fulfils in Hrun as [_ Hall]. rewrite (Hall eq_refl).
  unfold generation_effects. cbv zeta.
  rewrite !builds_app, builds_executor_effects, !builds_copy_effects.
  destruct (graph_to_graphviz gd); reflexivity.
Qed.

(** X15.  In every run of [GenerateApplication], also one that fails or
    panics, every file that is created or opened is closed again, innermost
    first; templates are executed, writers flushed and data copied only on
    open files; no file is open at the end. *)
Theorem GenerateApplication_closes_its_files (a : option (app.Application E))
    (path : string) (meta : Metadata.t) (gd : Graphdata.t G)
    (w : W) (res : Outcome (option error)) (w' : W) (tr : list (Event (Data E))) :
  run h (GenerateApplication a path meta gd) w = (res, w', tr) ->
  open_after [] tr = Some [].
Proof. intros Hrun. exact (GenerateApplication_neutral h _ _ _ _ _ _ _ _ Hrun []). Qed.

(** X16.  [GenerateApplication] panics only in a run in which a template
    was read as a nil buffer without an error, or on graph data on which
    [graph_to_graphviz] panics.  The panic of [graph_to_graphviz] comes
    only after the project files have been written: the effects of such a
    run are exactly the seven directories, the source of every executor,
    the manifest and the descriptor, the copies of the libraries, headers
    and sources, and the launch script, each created and rendered or
    copied; [dot] was not started. *)
Theorem GenerateApplication_panics_only_if (a : option (app.Application E))
    (path : string) (meta : Metadata.t) (gd : Graphdata.t G)
    (w : W) (res : Outcome (option error)) (w' : W) (tr : list (Event (Data E))) :
  run h (GenerateApplication a path meta gd) w = (res, w', tr) ->
  res = Panicked ->
  nil_buffer_read tr = true
  \/ (graph_to_graphviz gd = None
      /\ exists a', a = Some a'
         /\ let path := stripped path in
            let root_dir := path +:+ "/" +:+ app.Name a' in
            let src_dir := root_dir +:+ "/src" in
            let include_dir_2 := (root_dir +:+ "/include") +:+ "/" +:+ app.Name a' in
            let lib_dir := root_dir +:+ "/lib" in
            let launch_dir := root_dir +:+ "/launch" in
            let launch := launch_dir +:+ "/" +:+ app.Name a' +:+ "_launch.py" in
            let build := BuildData (build_of a' meta) in
            effects tr
            = (Made <$> [root_dir; src_dir; root_dir +:+ "/include"; include_dir_2;
                         lib_dir; launch_dir; root_dir +:+ "/assets"])
              ++ executor_effects meta src_dir 0 (app.Executors a')
              ++ [ Created (root_dir +:+ "/CMakeLists.txt");
                   Rendered (FileWriter (root_dir +:+ "/CMakeLists.txt")) build;
                   Created (root_dir +:+ "/package.xml");
                   Rendered (FileWriter (root_dir +:+ "/package.xml")) build ]
              ++ copy_effects (Metadata.Libraries meta) lib_dir
              ++ copy_effects (Metadata.Headers meta) include_dir_2
              ++ copy_effects (Metadata.Sources meta) src_dir
              ++ [ Created launch; Rendered (FileWriter launch) build ]).
Proof.
  intros Hrun ->. destruct a as [a|]; [|discriminate Hrun].
  destruct (GenerateApplication_panics_after h _ _ _ _ _ _ _ Hrun)
    as [Hnil|[Hgraph Heff]]; [now left|right].
  split; [exact Hgraph|]. exists a. split; [reflexivity|exact Heff].
Qed.

End OrchestratorProperties.

(** X17.  One trailing separator of the root path is immaterial: for a
    path that is not empty and does not end in [/], [GenerateApplication]
    is the same body with and without a [/] appended. *)
Theorem GenerateApplication_trailing_slash {E G : Type} `{GraphOps G}
    (a : option (app.Application E)) (path : string) (meta : Metadata.t)
    (gd : Graphdata.t G) :
  path <> "" -> HasSuffix path "/" = false ->
  GenerateApplication a (path +:+ "/") meta gd = GenerateApplication a path meta gd.
Proof.
  intros Hne Hsuf. unfold GenerateApplication. destruct a as [a|]; [|reflexivity].
  fold (stripped (path +:+ "/")). fold (stripped path).
  now rewrite (stripped_slash _ Hne), (stripped_without_slash _ Hsuf).
Qed.

(** ** Filenames *)

(** X18.  [filename_from_path] undoes joining a directory and a name with
    [/]: for a name that holds no [/] it returns that name, whatever the
    directory is. *)
Theorem filename_from_path_joined (dir f : string) :
  contains slash f = false ->
  filename_from_path (dir +:+ "/" +:+ f) = (f, None).
Proof.
  intros Hf. rewrite filename_from_path_eq. f_equal.
  apply (after_last_separator_unique (dir +:+ "/" +:+ f)).
  - apply basename_after_last_separator.
  - split; [exact Hf|]. right. now exists dir.
Qed.

(** X19.  [filename_from_path] is idempotent: on the name it returned it
    returns that name again. *)
Theorem filename_from_path_idempotent (path : string) :
  filename_from_path (fst (filename_from_path path))
  = (fst (filename_from_path path), None).
Proof.
  fold (basename path). rewrite filename_from_path_eq. f_equal.
  destruct (basename_after_last_separator path) as [Hno _].
  apply (after_last_separator_unique (basename path)).
  - apply basename_after_last_separator.
  - split; [exact Hno|now left].
Qed.

(** ** The properties on concrete inputs *)

Ltac run_of R := unfold R; now destruct (run _ _ _) as [[? ?] ?].

Lemma graph_to_graphviz_nodes_ascending_witness :
  StronglySorted Z.lt (map Node.Id (Graphviz_graph.Nodes Examples.sync_diagram))
  /\ NoDup (map Node.Id (Graphviz_graph.Nodes Examples.sync_diagram))
  /\ Forall (fun i => 0 <= i < Len (Graphdata.Graph Examples.sync_data))
            (map Node.Id (Graphviz_graph.Nodes Examples.sync_diagram)).
Proof.
  apply (graph_to_graphviz_nodes_ascending Examples.sync_data Examples.sync_diagram).
  vm_compute. reflexivity.
Defined.

Lemma graph_to_graphviz_links_row_major_witness :
  StronglySorted link_le (Graphviz_graph.Links Examples.sync_diagram)
  /\ Forall (fun l => 0 <= Link.From l < Len (Graphdata.Graph Examples.sync_data)
                      /\ 0 <= Link.To l < Len (Graphdata.Graph Examples.sync_data))
            (Graphviz_graph.Links Examples.sync_diagram).
Proof.
  apply (graph_to_graphviz_links_row_major Examples.sync_data Examples.sync_diagram).
  vm_compute. reflexivity.
Defined.

Lemma GenerateTemplate_nil_return_witness :
  exists d text t,
    Some 7 = Some d /\ "ws/templates/launch.tmpl" <> "launch.py"
    /\ snd Scenarios.template_run
       = [ Ev (Create "launch.py") None;
           Ev (ReadFile "ws/templates/launch.tmpl") (Ok (Some text));
           Ev (Parse text) (Ok t);
           Ev (Execute t (FileWriter "launch.py") d) None;
           Ev (Flush "launch.py") tt;
           Ev (Close "launch.py") tt ].
Proof.
  apply (GenerateTemplate_nil_return Sim.handle (Some 7) "ws/templates/launch.tmpl"
           "launch.py" Examples.demo_world (snd (fst Scenarios.template_run))).
  vm_compute. reflexivity.
Defined.

Lemma GenerateTemplate_closes_its_file_witness :
  open_after [] (snd Scenarios.faulty_template_run) = Some [].
Proof.
  apply (GenerateTemplate_closes_its_file Faulty.handle (Some 7) "launch.tmpl"
           "launch.py" tt (fst (fst Scenarios.faulty_template_run))
           (snd (fst Scenarios.faulty_template_run))).
  run_of Scenarios.faulty_template_run.
Defined.

Lemma GenerateTemplate_panics_iff_witness :
  fst (fst Scenarios.faulty_template_run) = Panicked
  <-> nil_buffer_read (snd Scenarios.faulty_template_run) = true.
Proof.
  apply (GenerateTemplate_panics_iff Faulty.handle (Some 7) "launch.tmpl"
           "launch.py" tt _ (snd (fst Scenarios.faulty_template_run))).
  run_of Scenarios.faulty_template_run.
Defined.

Lemma GenerateWithCommand_panics_iff_witness :
  fst (fst Scenarios.faulty_command_run) = Panicked
  <-> nil_buffer_read (snd Scenarios.faulty_command_run) = true.
Proof.
  apply (GenerateWithCommand_panics_iff Faulty.handle "graph.dt" "dot" ["-Tpng"]
           (Some 7) tt _ (snd (fst Scenarios.faulty_command_run))).
  run_of Scenarios.faulty_command_run.
Defined.

Lemma GenerateWithCommand_starts_after_parse_witness :
  effects (snd Examples.dot_run) = []
  \/ exists d resolved text t status err,
       Some 7 = Some d
       /\ snd Examples.dot_run
          = [ Ev (LookPath "dot") (Ok resolved);
              Ev (ReadFile "ws/templates/graph.dt") (Ok (Some text));
              Ev (Parse text) (Ok t);
              Ev (Go_Run "dot" ["-Tpng"]) status;
              Ev (Execute t PipeWriter d) err;
              Ev Pipe_Close tt ].
Proof.
  apply (GenerateWithCommand_starts_after_parse Sim.handle "ws/templates/graph.dt"
           "dot" ["-Tpng"] (Some 7) Examples.demo_world
           (fst (fst Examples.dot_run)) (snd (fst Examples.dot_run))).
  run_of Examples.dot_run.
Defined.

Lemma copy_files_to_copies_witness :
  effects (snd Scenarios.staging_run)
  `prefix_of` [ Copied "lib/libppe.a" "vendor/libppe.a";
                Copied "lib/missing.a" "vendor/missing.a" ]
  /\ (fst (fst Scenarios.staging_run) = Returned None ->
      effects (snd Scenarios.staging_run)
      = [ Copied "lib/libppe.a" "vendor/libppe.a";
          Copied "lib/missing.a" "vendor/missing.a" ]).
Proof.
  assert (Hrun : run Sim.handle
                     (copy_files_to ["vendor/libppe.a"; "vendor/missing.a"] "lib")
                     Scenarios.staging_world
                 = (fst (fst Scenarios.staging_run), snd (fst Scenarios.staging_run),
                    snd Scenarios.staging_run))
    by run_of Scenarios.staging_run.
  exact (copy_files_to_copies Sim.handle _ _ _ _ _ _ Hrun).
Defined.

Lemma copy_files_to_closes_its_files_witness :
  open_after [] (snd Scenarios.staging_run) = Some [].
Proof.
  apply (copy_files_to_closes_its_files Sim.handle
           ["vendor/libppe.a"; "vendor/missing.a"] "lib" Scenarios.staging_world
           (fst (fst Scenarios.staging_run)) (snd (fst Scenarios.staging_run))).
  run_of Scenarios.staging_run.
Defined.

Lemma demo_run_is_a_run :
  run Sim.handle
      (GenerateApplication (Some Examples.demo_app) "ws/" Examples.demo_meta
                           Examples.chain_data)
      Examples.demo_world
  = (Returned None, snd (fst Examples.demo_run), snd Examples.demo_run).
Proof. vm_compute. reflexivity. Defined.

Lemma stray_run_is_a_run :
  run Sim.handle
      (GenerateApplication (Some Examples.demo_app) "ws/" Examples.demo_meta
                           Examples.stray_data)
      Examples.demo_world
  = (Panicked, snd (fst Scenarios.stray_run), snd Scenarios.stray_run).
Proof. vm_compute. reflexivity. Defined.

Lemma GenerateApplication_effects_witness :
  effects (snd Examples.demo_run)
  = generation_effects Examples.demo_app "ws/" Examples.demo_meta Examples.chain_data.
Proof.
  exact (proj2 (GenerateApplication_effects Sim.handle _ _ _ _ _ _ _ _
                  demo_run_is_a_run) eq_refl).
Defined.

Lemma GenerateApplication_directories_first_witness :
  (Made <$> project_directories Examples.demo_app "ws/")
  `prefix_of` effects (snd Examples.demo_run).
Proof.
  apply (GenerateApplication_directories_first Sim.handle _ _ _ _ _ _ _ _
           (Created "ws/demo/src/executor_0.cpp") demo_run_is_a_run);
    [|reflexivity].
  vm_compute. do 7 right. left. reflexivity.
Defined.

Lemma GenerateApplication_one_build_record_witness :
  let build :=
    {| Build.Name := "demo";
       Build.Packages := ["rclcpp"];
       Build.Sources := [];
       Build.Libraries := [];
       Build.Executors := ros_executor Examples.demo_meta <$> ["first"; "second"] |} in
  builds (effects (snd Examples.demo_run)) = [build; build; build].
Proof.
  exact (GenerateApplication_one_build_record Sim.handle _ _ _ _ _ _ _
           demo_run_is_a_run).
Defined.

Lemma GenerateApplication_closes_its_files_witness :
  open_after [] (snd Scenarios.stray_run) = Some [].
Proof.
  exact (GenerateApplication_closes_its_files Sim.handle _ _ _ _ _ _ _ _
           stray_run_is_a_run).
Defined.

Lemma GenerateApplication_panics_only_if_witness :
  graph_to_graphviz Examples.stray_data = None
  /\ effects (snd Scenarios.stray_run)
     = project_effects Examples.demo_app "ws/" Examples.demo_meta.
Proof.
  destruct (GenerateApplication_panics_only_if Sim.handle _ _ _ _ _ _ _ _
              stray_run_is_a_run eq_refl)
    as [Hnil|[Hgraph (a' & Ha & Heff)]].
  - vm_compute in Hnil. discriminate Hnil.
  - injection Ha as <-. split; [exact Hgraph|exact Heff].
Defined.

Lemma GenerateApplication_trailing_slash_witness :
  GenerateApplication (Some Examples.demo_app) ("ws" +:+ "/") Examples.demo_meta
                      Examples.chain_data
  = GenerateApplication (Some Examples.demo_app) "ws" Examples.demo_meta
                        Examples.chain_data.
Proof.
  apply GenerateApplication_trailing_slash; [discriminate|reflexivity].
Defined.

Lemma filename_from_path_joined_witness :
  filename_from_path ("vendor" +:+ "/" +:+ "libppe.a") = ("libppe.a", None).
Proof. apply filename_from_path_joined. reflexivity. Defined.

(** ** Names of the executor sources *)

Lemma Sprintf_d_inj (a b : Z) : Sprintf_d a = Sprintf_d b -> a = b.
Proof.
  unfold Sprintf_d. intros Heq. apply DecimalZ.to_int_inj.
  assert (Hnonnil : forall z, Z.to_int z <> Decimal.Pos Decimal.Nil
                              /\ Z.to_int z <> Decimal.Neg Decimal.Nil).
  { intros [|p|p]; simpl; split; try discriminate;
      intros [= Hp]; now apply DecimalPos.Unsigned.to_uint_nonnil in Hp. }
  assert (Hsome : Some (Z.to_int a) = Some (Z.to_int b)).
  { rewrite <- (NilZero.isi (Z.to_int a)), <- (NilZero.isi (Z.to_int b))
      by apply Hnonnil.
    now rewrite Heq. }
  now injection Hsome.
Qed.

Lemma string_app_inv_head (a x y : string) : a +:+ x = a +:+ y -> x = y.
Proof.
  induction a as [|c a IH]; [auto|]. rewrite !app_String. intros [= Heq]. auto.
Qed.

Lemma string_app_inv_tail (x y s : string) : x +:+ s = y +:+ s -> x = y.
Proof.
  revert y. induction x as [|c x IH]; intros [|d y]; rewrite ?app_String.
  - reflexivity.
  - intros Heq. apply (f_equal String.length) in Heq.
    cbn [String.length] in Heq. rewrite !string_length_app in Heq.
    cbn [String.length] in Heq. lia.
  - intros Heq. apply (f_equal String.length) in Heq.
    cbn [String.length] in Heq. rewrite !string_length_app in Heq.
    cbn [String.length] in Heq. lia.
  - intros [= -> Heq]. f_equal. now apply IH.
Qed.

Lemma executor_source_inj (src_dir : string) (i j : Z) :
  executor_source src_dir i = executor_source src_dir j -> i = j.
Proof.
  unfold executor_source. intros Heq.
  apply string_app_inv_head, string_app_inv_head, string_app_inv_tail in Heq.
  now apply Sprintf_d_inj.
Qed.

Lemma Zseq_NoDup (i : Z) (n : nat) : NoDup (Zseq i n).
Proof.
  revert i. induction n as [|n IH]; intros i; simpl; constructor; [|apply IH].
  intros Hin. apply list_elem_of_In, In_Zseq in Hin. lia.
Qed.

Lemma sources_from_NoDup {E : Type} (src_dir : string) (i : Z) (execs : list E) :
  NoDup (sources_from src_dir i execs).
Proof.
  unfold sources_from. apply NoDup_fmap_2; [|apply Zseq_NoDup].
  intros a b. apply executor_source_inj.
Qed.

Lemma sources_from_length {E : Type} (src_dir : string) (i : Z) (execs : list E) :
  length (sources_from src_dir i execs) = length execs.
Proof. unfold sources_from. now rewrite length_fmap, Zseq_length. Qed.

Section MoreProperties.
Context {E G W : Type} `{GraphOps G} (h : Handler (Data E) W).

(** X20.  No executor overwrites the source of another: in a run of
    [GenerateApplication] that returns nil, the files created for the
    executors, the first [len(a.Executors)] files created, are pairwise
    different. *)
Theorem GenerateApplication_executor_files_distinct (a : app.Application E)
    (path : string) (meta : Metadata.t) (gd : Graphdata.t G)
    (w w' : W) (tr : list (Event (Data E))) :
  run h (GenerateApplication (Some a) path meta gd) w = (Returned None, w', tr) ->
  NoDup (take (length (app.Executors a)) (created tr)).
Proof.
  intros Hrun. apply GenerateApplication_run in Hrun as [_ Hok].
  destruct (Hok eq_refl) as ([rest ->] & _).
  rewrite <- (sources_from_length ((stripped path +:+ "/" +:+ app.Name a) +:+ "/src")
                0 (app.Executors a)).
  rewrite take_app_length. apply sources_from_NoDup.
Qed.

End MoreProperties.

Section TemplateOrder.
Context {D W : Type} (h : Handler D W).

(** X21.  [GenerateTemplate] creates the output file before it reads the
    template: in every run in which the template is read, also one in
    which reading or parsing it fails, the output file has been created. *)
Theorem GenerateTemplate_creates_before_reading (data : option D)
    (in_path out_path : string) (w : W) (res : Outcome (option error)) (w' : W)
    (tr : list (Event D)) :
  run h (GenerateTemplate data in_path out_path) w = (res, w', tr) ->
  read tr <> [] ->
  exists tr', tr = Ev (Create out_path) None :: tr'.
Proof.
  unfold GenerateTemplate.
  destruct data as [d|]; [|intros [= <- <- <-]; now intros []].
  destruct (String.eqb in_path out_path); [intros [= <- <- <-]; now intros []|].
  simpl. destruct (h (Create out_path) w) as [[err|] w1]; simpl;
    [intros [= <- <- <-]; now intros []|].
  destruct (h (ReadFile in_path) w1) as [[[text|]|err] w2]; simpl.
  - destruct (h (Parse text) w2) as [[t|err] w3]; simpl.
    + destruct (h (Execute t (FileWriter out_path) d) w3) as [[err|] w4]; simpl;
        destruct (h (Flush out_path) w4) as [[] w5];
        destruct (h (Close out_path) w5) as [[] w6]; simpl;
        intros [= <- <- <-] _; eauto.
    + destruct (h (Close out_path) w3) as [[] w4]. simpl. intros [= <- <- <-] _. eauto.
  - destruct (h (Close out_path) w2) as [[] w3]. simpl. intros [= <- <- <-] _. eauto.
  - destruct (h (Close out_path) w2) as [[] w3]. simpl. intros [= <- <- <-] _. eauto.
Qed.

End TemplateOrder.

Lemma GenerateApplication_executor_files_distinct_witness :
  NoDup (take (length (app.Executors Examples.demo_app))
              (created (snd Examples.demo_run))).
Proof.
  exact (GenerateApplication_executor_files_distinct Sim.handle _ _ _ _ _ _ _
           demo_run_is_a_run).
Defined.

Lemma GenerateTemplate_creates_before_reading_witness :
  exists tr',
    snd Scenarios.faulty_template_run = Ev (Create "launch.py") None :: tr'.
Proof.
  apply (GenerateTemplate_creates_before_reading Faulty.handle (Some 7) "launch.tmpl"
           "launch.py" tt (fst (fst Scenarios.faulty_template_run))
           (snd (fst Scenarios.faulty_template_run))).
  - run_of Scenarios.faulty_template_run.
  - vm_compute. discriminate.
Defined.
